(** * Update dispatch core of the Telegram bot library

    A shallow embedding of [src/UpdateHandler.ts] (the middleware pipeline,
    the update router, the handler registries and [commandParser]) and of
    the [CommandRouter] class, together with the properties of the dispatch
    core that the specification states about them.

    Asynchronous functions are modelled as computations in a state and
    exception monad: every [await] in the source is sequential, so a
    [Promise<void>] that resolves is a computation that returns and a
    rejected promise is a computation that throws.  Mutations performed
    before a throw are kept, as in JavaScript. *)

From Stdlib Require Import String Ascii List ZArith Bool Arith Lia.
From Stdlib Require Import DecimalString.
Import ListNotations.

Local Open Scope string_scope.
Local Open Scope list_scope.

(** ** Data model *)

Module Chat.
Record t := { id : Z }.
End Chat.

Module Message.
(** The two fields of a message the dispatch core reads. *)
Record t := { chat : Chat.t; text : option string }.
End Message.

(** Payload of the update kinds that the [Update] interface types as
    [any]; the core only tests their presence. *)
Inductive Payload := payload (tag : string).

Module Update.
Record t := {
  update_id : Z;
  message : option Message.t;
  edited_message : option Message.t;
  channel_post : option Message.t;
  edited_channel_post : option Message.t;
  business_message : option Message.t;
  edited_business_message : option Message.t;
  business_messages_deleted : option Payload;
  message_reaction : option Payload;
  message_reaction_count : option Payload;
  inline_query : option Payload;
  chosen_inline_result : option Payload;
  callback_query : option Payload;
  shipping_query : option Payload;
  pre_checkout_query : option Payload;
  poll : option Payload;
  poll_answer : option Payload;
  my_chat_member : option Payload;
  chat_member : option Payload;
  chat_join_request : option Payload;
  chat_boost : option Payload;
  removed_chat_boost : option Payload;
  business_connection : option Payload
}.
End Update.

(** [UpdateContext]: the update plus the open-ended keys that the code of
    the core writes and reads ([command], [args], [botUsername]); a key
    that was never assigned is [None] (JavaScript's [undefined]).  The
    client is not a field here: its calls are recorded in the trace. *)
Module UpdateContext.
Record t := {
  update : Update.t;
  command : option string;
  args : option (list string);
  botUsername : option string
}.
End UpdateContext.

(** Truthiness of an optional object, of a string and of a number. *)
Definition present {A : Type} (o : option A) : bool :=
  match o with Some _ => true | None => false end.

Definition truthy_string (o : option string) : bool :=
  match o with
  | Some s => negb (String.eqb s EmptyString)
  | None => false
  end.

Definition truthy_number (o : option Z) : bool :=
  match o with
  | Some n => negb (Z.eqb n 0)
  | None => false
  end.

(** The value of a number that passed a truthiness test. *)
Definition number_value (o : option Z) : Z :=
  match o with Some n => n | None => 0%Z end.

(** ** Effects *)

Definition Error := string.

(** What an execution leaves behind, in chronological order. *)
Inductive Event :=
| StageLog (label : string)
| HandlerCall (name : string) (ctx : UpdateContext.t)
| ConsoleError (msg : string) (err : Error)
| SendMessage (chat_id : Z) (text : string).

(** [index] is the local variable of [runMiddleware] that the [dispatch]
    closure captures and increments. *)
Record State := {
  ctx : UpdateContext.t;
  index : nat;
  trace : list Event
}.

Inductive Result (A : Type) :=
| Ok (a : A)
| Throw (e : Error)
| OutOfFuel.
Arguments Ok {A} a.
Arguments Throw {A} e.
Arguments OutOfFuel {A}.

Definition M (A : Type) := State -> Result A * State.

Definition ret {A} (a : A) : M A := fun s => (Ok a, s).

Definition bind {A B} (m : M A) (k : A -> M B) : M B :=
  fun s =>
    match m s with
    | (Ok a, s') => k a s'
    | (Throw e, s') => (Throw e, s')
    | (OutOfFuel, s') => (OutOfFuel, s')
    end.

Definition throw {A} (e : Error) : M A := fun s => (Throw e, s).

Definition try_catch {A} (m : M A) (handler : Error -> M A) : M A :=
  fun s =>
    match m s with
    | (Throw e, s') => handler e s'
    | r => r
    end.

Declare Scope monad_scope.
Delimit Scope monad_scope with monad.
Notation "x <- m ;; k" := (bind m (fun x => k))
  (at level 61, m at next level, right associativity) : monad_scope.
Notation "m ;; k" := (bind m (fun _ => k))
  (at level 61, right associativity) : monad_scope.
Local Open Scope monad_scope.

Definition get_ctx : M UpdateContext.t := fun s => (Ok (ctx s), s).

Definition set_ctx (c : UpdateContext.t) : M unit :=
  fun s => (Ok tt, {| ctx := c; index := index s; trace := trace s |}).

Definition set_index (i : nat) : M unit :=
  fun s => (Ok tt, {| ctx := ctx s; index := i; trace := trace s |}).

Definition emit (e : Event) : M unit :=
  fun s => (Ok tt, {| ctx := ctx s; index := index s; trace := trace s ++ [e] |}).

Definition when (b : bool) (m : M unit) : M unit :=
  if b then m else ret tt.

(** [console.error(msg, error)]. *)
Definition console_error (msg : string) (error : Error) : M unit :=
  emit (ConsoleError msg error).

(** [ctx.client.sendMessage({chat_id, text})]: the request is recorded.
    Failures of the transport are outside the dispatch core. *)
Definition sendMessage (chat_id : Z) (text : string) : M unit :=
  emit (SendMessage chat_id text).

(** ** User-supplied callbacks

    Handlers and middleware stages are inputs of the library.  A handler is
    identified by a name; calling it records the context it receives and
    then either returns or throws.  A user stage is a straight-line script
    that logs, calls its continuation, or throws. *)

Record Handler := { hname : string; hthrows : option Error }.

Definition call (h : Handler) : M unit :=
  c <- get_ctx ;;
  emit (HandlerCall (hname h) c) ;;
  match hthrows h with
  | Some e => throw e
  | None => ret tt
  end.

Definition MiddlewareFunction := M unit -> M unit.

Inductive instr :=
| Log (label : string)
| Proceed
| Raise (e : Error).

Definition Stage := list instr.

Fixpoint run_stage (body : Stage) (next : M unit) : M unit :=
  match body with
  | [] => ret tt
  | Log l :: rest => emit (StageLog l) ;; run_stage rest next
  | Proceed :: rest => next ;; run_stage rest next
  | Raise e :: _ => throw e
  end.

(** ** UpdateHandler *)

Module Kind.
Inductive t :=
| message | edited_message | channel_post | edited_channel_post
| business_connection | business_message | edited_business_message
| business_messages_deleted | message_reaction | message_reaction_count
| inline_query | chosen_inline_result | callback_query | shipping_query
| pre_checkout_query | poll | poll_answer | my_chat_member | chat_member
| chat_join_request | chat_boost | removed_chat_boost.

Definition eqb (a b : t) : bool :=
  match a, b with
  | message, message | edited_message, edited_message
  | channel_post, channel_post | edited_channel_post, edited_channel_post
  | business_connection, business_connection
  | business_message, business_message
  | edited_business_message, edited_business_message
  | business_messages_deleted, business_messages_deleted
  | message_reaction, message_reaction
  | message_reaction_count, message_reaction_count
  | inline_query, inline_query | chosen_inline_result, chosen_inline_result
  | callback_query, callback_query | shipping_query, shipping_query
  | pre_checkout_query, pre_checkout_query | poll, poll
  | poll_answer, poll_answer | my_chat_member, my_chat_member
  | chat_member, chat_member | chat_join_request, chat_join_request
  | chat_boost, chat_boost | removed_chat_boost, removed_chat_boost => true
  | _, _ => false
  end.
End Kind.

Module Toggle.
(** The keys of [UpdateHandlerConfig]. *)
Inductive t :=
| handleEditedMessages | handleChannelPosts | handleInlineQueries
| handleCallbackQueries | handleShippingQueries | handlePreCheckoutQueries
| handlePolls | handlePollAnswers | handleChatMemberUpdates
| handleChatJoinRequests | handleChatBoosts | handleBusinessConnections
| handleBusinessMessages | handleMessageReactions.
End Toggle.

(** A key of [UpdateHandlerConfig].  Every key is optional: the object
    either does not have the key, or gives it a value, which may be
    [undefined] ([Given None]). *)
Inductive Entry :=
| Absent
| Given (value : option bool).

Definition UpdateHandlerConfig := Toggle.t -> Entry.

Module UpdateHandler.
(** The 22 private handler arrays are the components of [handlers]. *)
Record t := {
  middleware : list MiddlewareFunction;
  handlers : Kind.t -> list Handler;
  config : Toggle.t -> bool
}.

(** [constructor(config = {})]: the object is spread over the defaults,
    which are all [true], so every key the object has replaces the
    default, also when its value is [undefined].  [config] holds the
    truthiness of the stored value, which is all [routeUpdate] reads. *)
Definition new (cfg : UpdateHandlerConfig) : t :=
  {| middleware := [];
     handlers := fun _ => [];
     config := fun k => match cfg k with
                        | Absent => true
                        | Given (Some b) => b
                        | Given None => false
                        end |}.

Definition default_config : UpdateHandlerConfig := fun _ => Absent.

Definition use (mw : MiddlewareFunction) (this : t) : t :=
  {| middleware := middleware this ++ [mw];
     handlers := handlers this;
     config := config this |}.

(** [this.<kind>Handlers.push(handler)]. *)
Definition on (k : Kind.t) (handler : Handler) (this : t) : t :=
  {| middleware := middleware this;
     handlers := fun k' => if Kind.eqb k k'
                           then handlers this k' ++ [handler]
                           else handlers this k';
     config := config this |}.

Definition onMessage := on Kind.message.
Definition onEditedMessage := on Kind.edited_message.
Definition onChannelPost := on Kind.channel_post.
Definition onEditedChannelPost := on Kind.edited_channel_post.
Definition onBusinessConnection := on Kind.business_connection.
Definition onBusinessMessage := on Kind.business_message.
Definition onEditedBusinessMessage := on Kind.edited_business_message.
Definition onBusinessMessagesDeleted := on Kind.business_messages_deleted.
Definition onMessageReaction := on Kind.message_reaction.
Definition onMessageReactionCount := on Kind.message_reaction_count.
Definition onInlineQuery := on Kind.inline_query.
Definition onChosenInlineResult := on Kind.chosen_inline_result.
Definition onCallbackQuery := on Kind.callback_query.
Definition onShippingQuery := on Kind.shipping_query.
Definition onPreCheckoutQuery := on Kind.pre_checkout_query.
Definition onPoll := on Kind.poll.
Definition onPollAnswer := on Kind.poll_answer.
Definition onMyChatMember := on Kind.my_chat_member.
Definition onChatMember := on Kind.chat_member.
Definition onChatJoinRequest := on Kind.chat_join_request.
Definition onChatBoost := on Kind.chat_boost.
Definition onRemovedChatBoost := on Kind.removed_chat_boost.

Definition messageHandlers (this : t) := handlers this Kind.message.
Definition editedMessageHandlers (this : t) := handlers this Kind.edited_message.
Definition channelPostHandlers (this : t) := handlers this Kind.channel_post.
Definition editedChannelPostHandlers (this : t) := handlers this Kind.edited_channel_post.
Definition businessConnectionHandlers (this : t) := handlers this Kind.business_connection.
Definition businessMessageHandlers (this : t) := handlers this Kind.business_message.
Definition editedBusinessMessageHandlers (this : t) := handlers this Kind.edited_business_message.
Definition businessMessagesDeletedHandlers (this : t) := handlers this Kind.business_messages_deleted.
Definition messageReactionHandlers (this : t) := handlers this Kind.message_reaction.
Definition messageReactionCountHandlers (this : t) := handlers this Kind.message_reaction_count.
Definition inlineQueryHandlers (this : t) := handlers this Kind.inline_query.
Definition chosenInlineResultHandlers (this : t) := handlers this Kind.chosen_inline_result.
Definition callbackQueryHandlers (this : t) := handlers this Kind.callback_query.
Definition shippingQueryHandlers (this : t) := handlers this Kind.shipping_query.
Definition preCheckoutQueryHandlers (this : t) := handlers this Kind.pre_checkout_query.
Definition pollHandlers (this : t) := handlers this Kind.poll.
Definition pollAnswerHandlers (this : t) := handlers this Kind.poll_answer.
Definition myChatMemberHandlers (this : t) := handlers this Kind.my_chat_member.
Definition chatMemberHandlers (this : t) := handlers this Kind.chat_member.
Definition chatJoinRequestHandlers (this : t) := handlers this Kind.chat_join_request.
Definition chatBoostHandlers (this : t) := handlers this Kind.chat_boost.
Definition removedChatBoostHandlers (this : t) := handlers this Kind.removed_chat_boost.

(** [runHandlers]: every handler is awaited inside its own [try]; a
    failure is written to the console and the loop continues. *)
Fixpoint runHandlers (hs : list Handler) : M unit :=
  match hs with
  | [] => ret tt
  | handler :: rest =>
      try_catch (call handler)
                (fun error => console_error "Error in handler:" error) ;;
      runHandlers rest
  end.

(** [routeUpdate]: one independent [if] per kind field, in this order. *)
Definition routeUpdate (this : t) : M unit :=
  c <- get_ctx ;;
  let update := UpdateContext.update c in
  let cfg := config this in
  when (present (Update.message update))
       (runHandlers (messageHandlers this)) ;;
  when (present (Update.edited_message update) && cfg Toggle.handleEditedMessages)
       (runHandlers (editedMessageHandlers this)) ;;
  when (present (Update.channel_post update) && cfg Toggle.handleChannelPosts)
       (runHandlers (channelPostHandlers this)) ;;
  when (present (Update.edited_channel_post update) && cfg Toggle.handleChannelPosts)
       (runHandlers (editedChannelPostHandlers this)) ;;
  when (present (Update.business_connection update) && cfg Toggle.handleBusinessConnections)
       (runHandlers (businessConnectionHandlers this)) ;;
  when (present (Update.business_message update) && cfg Toggle.handleBusinessMessages)
       (runHandlers (businessMessageHandlers this)) ;;
  when (present (Update.edited_business_message update) && cfg Toggle.handleBusinessMessages)
       (runHandlers (editedBusinessMessageHandlers this)) ;;
  when (present (Update.business_messages_deleted update) && cfg Toggle.handleBusinessMessages)
       (runHandlers (businessMessagesDeletedHandlers this)) ;;
  when (present (Update.message_reaction update) && cfg Toggle.handleMessageReactions)
       (runHandlers (messageReactionHandlers this)) ;;
  when (present (Update.message_reaction_count update) && cfg Toggle.handleMessageReactions)
       (runHandlers (messageReactionCountHandlers this)) ;;
  when (present (Update.inline_query update) && cfg Toggle.handleInlineQueries)
       (runHandlers (inlineQueryHandlers this)) ;;
  when (present (Update.chosen_inline_result update) && cfg Toggle.handleInlineQueries)
       (runHandlers (chosenInlineResultHandlers this)) ;;
  when (present (Update.callback_query update) && cfg Toggle.handleCallbackQueries)
       (runHandlers (callbackQueryHandlers this)) ;;
  when (present (Update.shipping_query update) && cfg Toggle.handleShippingQueries)
       (runHandlers (shippingQueryHandlers this)) ;;
  when (present (Update.pre_checkout_query update) && cfg Toggle.handlePreCheckoutQueries)
       (runHandlers (preCheckoutQueryHandlers this)) ;;
  when (present (Update.poll update) && cfg Toggle.handlePolls)
       (runHandlers (pollHandlers this)) ;;
  when (present (Update.poll_answer update) && cfg Toggle.handlePollAnswers)
       (runHandlers (pollAnswerHandlers this)) ;;
  when (present (Update.my_chat_member update) && cfg Toggle.handleChatMemberUpdates)
       (runHandlers (myChatMemberHandlers this)) ;;
  when (present (Update.chat_member update) && cfg Toggle.handleChatMemberUpdates)
       (runHandlers (chatMemberHandlers this)) ;;
  when (present (Update.chat_join_request update) && cfg Toggle.handleChatJoinRequests)
       (runHandlers (chatJoinRequestHandlers this)) ;;
  when (present (Update.chat_boost update) && cfg Toggle.handleChatBoosts)
       (runHandlers (chatBoostHandlers this)) ;;
  when (present (Update.removed_chat_boost update) && cfg Toggle.handleChatBoosts)
       (runHandlers (removedChatBoostHandlers this)).

(** The [dispatch] closure of [runMiddleware].  It reads the shared
    [index]; when a stage is left to run it post-increments [index] and
    calls the stage with itself as continuation.  The recursion goes
    through the stage, so it is bounded by [fuel]: [runMiddleware] supplies
    one unit per registered stage, and [processUpdate_total] shows that
    this is always enough.  An index past the array cannot be read here;
    JavaScript would fail to call [undefined]. *)
Fixpoint dispatch (mws : list MiddlewareFunction) (next : M unit)
         (fuel : nat) : M unit :=
  fun s =>
    if (List.length mws <=? index s)%nat then next s
    else match fuel with
         | O => (OutOfFuel, s)
         | S fuel' =>
             match nth_error mws (index s) with
             | Some mw =>
                 (set_index (S (index s)) ;;
                  mw (dispatch mws next fuel')) s
             | None => (Throw "TypeError: middleware is not a function", s)
             end
         end.

Definition runMiddleware (this : t) (next : M unit) : M unit :=
  set_index 0 ;;
  dispatch (middleware this) next (List.length (middleware this)).

Definition initial (update : Update.t) : State :=
  {| ctx := {| UpdateContext.update := update;
               UpdateContext.command := None;
               UpdateContext.args := None;
               UpdateContext.botUsername := None |};
     index := 0;
     trace := [] |}.

(** [processUpdate(update, client)]: a fresh context, the middleware chain
    around [routeUpdate], and a [catch] that logs and rethrows.  The client
    is not a parameter: the one call the core makes on it, [sendMessage],
    is recorded in the trace. *)
Definition processUpdate (this : t) (update : Update.t)
  : Result unit * State :=
  try_catch (runMiddleware this (routeUpdate this))
            (fun error =>
               console_error "Error processing update:" error ;;
               throw error)
            (initial update).
End UpdateHandler.

(** ** JavaScript string and Map operations used by the command code

    Strings are sequences of bytes (UTF-8).  The separators the code uses
    are ASCII characters, which never occur inside a multi-byte sequence,
    so splitting and prefix tests agree with those on UTF-16 code units. *)

Module JS.
(** [s.startsWith(c)] for a one-character [c]. *)
Definition startsWith (s : string) (c : ascii) : bool :=
  match s with
  | String a _ => Ascii.eqb a c
  | EmptyString => false
  end.

(** [s.split(c)] for a one-character separator [c]: never empty. *)
Fixpoint split (s : string) (c : ascii) : list string :=
  match s with
  | EmptyString => [EmptyString]
  | String a rest =>
      if Ascii.eqb a c then EmptyString :: split rest c
      else match split rest c with
           | tok :: toks => String a tok :: toks
           | [] => [String a EmptyString]
           end
  end.

(** [s.substring(1)]. *)
Definition substring1 (s : string) : string :=
  match s with
  | String _ rest => rest
  | EmptyString => EmptyString
  end.

(** [arr.join(sep)]. *)
Definition join (sep : string) (arr : list string) : string :=
  String.concat sep arr.

(** A string of ASCII characters: every byte is below 128. *)
Fixpoint is_ascii (s : string) : bool :=
  match s with
  | EmptyString => true
  | String a rest => (nat_of_ascii a <? 128)%nat && is_ascii rest
  end.

(** [s.toLowerCase()] for a string of ASCII characters, where it changes
    the letters [A] to [Z] and nothing else.  On other strings
    [String.prototype.toLowerCase] follows the Unicode case mappings, which
    this definition does not: a statement that reads a key lower-cased by
    the code assumes [is_ascii] of the name. *)
Definition lower_ascii (a : ascii) : ascii :=
  let n := nat_of_ascii a in
  if ((65 <=? n) && (n <=? 90))%nat then ascii_of_nat (n + 32) else a.

Fixpoint toLowerCase (s : string) : string :=
  match s with
  | EmptyString => EmptyString
  | String a rest => String (lower_ascii a) (toLowerCase rest)
  end.

(** [Number.MAX_SAFE_INTEGER], and the integers every one of which is a
    JavaScript number. *)
Definition MAX_SAFE_INTEGER : Z := 9007199254740991.

Definition safe_integer (n : Z) : bool :=
  (Z.abs n <=? MAX_SAFE_INTEGER)%Z.

(** Rendering of a number inside a template literal, for a safe integer:
    its decimal digits, with a minus sign when it is negative.  Beyond the
    safe integers JavaScript prints the shortest digits that identify the
    number, in exponent form from [1e21] on, which this definition does
    not: a statement that reads a printed number assumes [safe_integer]. *)
Definition number_to_string (n : Z) : string :=
  NilZero.string_of_int (Z.to_int n).

(** A [Map<string, V>]: keys are unique and keep the position of their
    first insertion. *)
Section Map.
Context {V : Type}.

Fixpoint map_set (k : string) (v : V) (m : list (string * V))
  : list (string * V) :=
  match m with
  | [] => [(k, v)]
  | (k', v') :: rest =>
      if String.eqb k' k then (k', v) :: rest
      else (k', v') :: map_set k v rest
  end.

Fixpoint map_get (k : string) (m : list (string * V)) : option V :=
  match m with
  | [] => None
  | (k', v') :: rest => if String.eqb k' k then Some v' else map_get k rest
  end.

Definition map_values (m : list (string * V)) : list V := map snd m.
End Map.
End JS.

(** ** commandParser *)

(** [commandParser()]: the middleware it returns. *)
Definition commandParser : MiddlewareFunction :=
  fun next =>
    c <- get_ctx ;;
    let update := UpdateContext.update c in
    let message :=
      match Update.message update with
      | Some m => Some m
      | None => Update.business_message update
      end in
    match message with
    | Some {| Message.text := Some text |} =>
        when (JS.startsWith text "/")
          (let parts := JS.split text " " in
           let commandPart := JS.substring1 (hd EmptyString parts) in
           let pieces := JS.split commandPart "@" in
           set_ctx {| UpdateContext.update := update;
                      UpdateContext.command := Some (hd EmptyString pieces);
                      UpdateContext.args := Some (tl parts);
                      UpdateContext.botUsername := nth_error pieces 1 |})
    | _ => ret tt
    end ;;
    next.

(** ** CommandRouter *)

(** [minArgs] and [maxArgs] are integers. *)
Module CommandConfig.
Record t := {
  command : string;
  description : option string;
  handler : Handler;
  aliases : option (list string);
  minArgs : option Z;
  maxArgs : option Z;
  ignoreCase : option bool
}.
End CommandConfig.

Module CommandRouter.
Record t := {
  commandMap : list (string * CommandConfig.t);
  defaultHandler : option Handler;
  unknownCommandHandler : option Handler;
  helpCommand : string
}.

Definition createCommandRouter : t :=
  {| commandMap := [];
     defaultHandler := None;
     unknownCommandHandler := None;
     helpCommand := "help" |}.

Definition with_map (m : list (string * CommandConfig.t)) (this : t) : t :=
  {| commandMap := m;
     defaultHandler := defaultHandler this;
     unknownCommandHandler := unknownCommandHandler this;
     helpCommand := helpCommand this |}.

Definition truthy_bool (o : option bool) : bool :=
  match o with Some b => b | None => false end.

(** [command(config)]: the name, then every alias, is set in the map. *)
Definition command (config : CommandConfig.t) (this : t) : t :=
  let key (name : string) :=
    if truthy_bool (CommandConfig.ignoreCase config)
    then JS.toLowerCase name else name in
  let m := JS.map_set (key (CommandConfig.command config)) config
                      (commandMap this) in
  match CommandConfig.aliases config with
  | Some aliases =>
      with_map (fold_left (fun acc alias => JS.map_set (key alias) config acc)
                          aliases m) this
  | None => with_map m this
  end.

Definition commands (configs : list CommandConfig.t) (this : t) : t :=
  fold_left (fun r config => command config r) configs this.

Definition default (handler : Handler) (this : t) : t :=
  {| commandMap := commandMap this;
     defaultHandler := Some handler;
     unknownCommandHandler := unknownCommandHandler this;
     helpCommand := helpCommand this |}.

Definition unknown (handler : Handler) (this : t) : t :=
  {| commandMap := commandMap this;
     defaultHandler := defaultHandler this;
     unknownCommandHandler := Some handler;
     helpCommand := helpCommand this |}.

Definition help (cmd : string) (this : t) : t :=
  {| commandMap := commandMap this;
     defaultHandler := defaultHandler this;
     unknownCommandHandler := unknownCommandHandler this;
     helpCommand := cmd |}.

(** The template literal of [generateHelp]. *)
Definition help_line (cmd : CommandConfig.t) : string :=
  ("/" ++ CommandConfig.command cmd ++ " - "
       ++ match CommandConfig.description cmd with
          | Some d => d
          | None => "undefined"
          end)%string.

Definition generateHelp (this : t) : string :=
  let commands :=
    JS.join (String (ascii_of_nat 10) EmptyString)
      (map help_line
         (filter (fun cmd => truthy_string (CommandConfig.description cmd))
                 (JS.map_values (commandMap this)))) in
  if String.eqb commands EmptyString then "No commands available."
  else commands.

(** [if (ctx.update.message) await ctx.client.sendMessage(...)]. *)
Definition reply (c : UpdateContext.t) (text : string) : M unit :=
  match Update.message (UpdateContext.update c) with
  | Some m => sendMessage (Chat.id (Message.chat m)) text
  | None => ret tt
  end.

Definition args_length (c : UpdateContext.t) : Z :=
  match UpdateContext.args c with
  | Some a => Z.of_nat (List.length a)
  | None => 0
  end.

Definition min_text (cmd : string) (n : Z) : string :=
  ("Command /" ++ cmd ++ " requires at least "
     ++ JS.number_to_string n ++ " arguments.")%string.

Definition max_text (cmd : string) (n : Z) : string :=
  ("Command /" ++ cmd ++ " accepts at most "
     ++ JS.number_to_string n ++ " arguments.")%string.

Definition unknown_text (cmd helpCmd : string) : string :=
  ("Unknown command: /" ++ cmd ++ ". Type /" ++ helpCmd
     ++ " for available commands.")%string.

(** [middleware()]: the middleware it returns. *)
Definition middleware (this : t) : MiddlewareFunction :=
  fun next =>
    c <- get_ctx ;;
    if negb (truthy_string (UpdateContext.command c)) then
      match defaultHandler this with
      | Some h => call h
      | None => next
      end
    else
      let cmd := match UpdateContext.command c with
                 | Some s => s
                 | None => EmptyString
                 end in
      if String.eqb cmd (helpCommand this) then
        let helpText := generateHelp this in
        reply c helpText
      else
        match JS.map_get cmd (commandMap this) with
        | Some commandConfig =>
            let minArgs := CommandConfig.minArgs commandConfig in
            let maxArgs := CommandConfig.maxArgs commandConfig in
            if truthy_number minArgs
               && (negb (present (UpdateContext.args c))
                   || (args_length c <? number_value minArgs)%Z)
            then reply c (min_text cmd (number_value minArgs))
            else if truthy_number maxArgs
                    && present (UpdateContext.args c)
                    && (args_length c >? number_value maxArgs)%Z
            then reply c (max_text cmd (number_value maxArgs))
            else call (CommandConfig.handler commandConfig)
        | None =>
            match unknownCommandHandler this with
            | Some h => call h
            | None => reply c (unknown_text cmd (helpCommand this))
            end
        end.
End CommandRouter.

(** ** Observations used to state the properties *)

(** [s] after the events [evs] were appended to its trace. *)
Definition add_trace (evs : list Event) (s : State) : State :=
  {| ctx := ctx s; index := index s; trace := trace s ++ evs |}.

(** [s] with [index] replaced and [evs] appended. *)
Definition advance (i : nat) (evs : list Event) (s : State) : State :=
  {| ctx := ctx s; index := i; trace := trace s ++ evs |}.

(** What one handler of a registry leaves in the trace: its call and,
    when it throws, the console line of [runHandlers]. *)
Definition handler_events (c : UpdateContext.t) (h : Handler) : list Event :=
  HandlerCall (hname h) c ::
  match hthrows h with
  | Some e => [ConsoleError "Error in handler:" e]
  | None => []
  end.

Definition registry_events (c : UpdateContext.t) (hs : list Handler)
  : list Event :=
  flat_map (handler_events c) hs.

(** The kinds in the order of the [if] statements of [routeUpdate], the
    field each one tests and the toggle that governs it. *)
Definition declaration_order : list Kind.t :=
  [Kind.message; Kind.edited_message; Kind.channel_post;
   Kind.edited_channel_post; Kind.business_connection; Kind.business_message;
   Kind.edited_business_message; Kind.business_messages_deleted;
   Kind.message_reaction; Kind.message_reaction_count; Kind.inline_query;
   Kind.chosen_inline_result; Kind.callback_query; Kind.shipping_query;
   Kind.pre_checkout_query; Kind.poll; Kind.poll_answer; Kind.my_chat_member;
   Kind.chat_member; Kind.chat_join_request; Kind.chat_boost;
   Kind.removed_chat_boost].

Definition field_present (u : Update.t) (k : Kind.t) : bool :=
  match k with
  | Kind.message => present (Update.message u)
  | Kind.edited_message => present (Update.edited_message u)
  | Kind.channel_post => present (Update.channel_post u)
  | Kind.edited_channel_post => present (Update.edited_channel_post u)
  | Kind.business_connection => present (Update.business_connection u)
  | Kind.business_message => present (Update.business_message u)
  | Kind.edited_business_message => present (Update.edited_business_message u)
  | Kind.business_messages_deleted => present (Update.business_messages_deleted u)
  | Kind.message_reaction => present (Update.message_reaction u)
  | Kind.message_reaction_count => present (Update.message_reaction_count u)
  | Kind.inline_query => present (Update.inline_query u)
  | Kind.chosen_inline_result => present (Update.chosen_inline_result u)
  | Kind.callback_query => present (Update.callback_query u)
  | Kind.shipping_query => present (Update.shipping_query u)
  | Kind.pre_checkout_query => present (Update.pre_checkout_query u)
  | Kind.poll => present (Update.poll u)
  | Kind.poll_answer => present (Update.poll_answer u)
  | Kind.my_chat_member => present (Update.my_chat_member u)
  | Kind.chat_member => present (Update.chat_member u)
  | Kind.chat_join_request => present (Update.chat_join_request u)
  | Kind.chat_boost => present (Update.chat_boost u)
  | Kind.removed_chat_boost => present (Update.removed_chat_boost u)
  end.

Definition governing_toggle (k : Kind.t) : option Toggle.t :=
  match k with
  | Kind.message => None
  | Kind.edited_message => Some Toggle.handleEditedMessages
  | Kind.channel_post | Kind.edited_channel_post =>
      Some Toggle.handleChannelPosts
  | Kind.business_connection => Some Toggle.handleBusinessConnections
  | Kind.business_message | Kind.edited_business_message
  | Kind.business_messages_deleted => Some Toggle.handleBusinessMessages
  | Kind.message_reaction | Kind.message_reaction_count =>
      Some Toggle.handleMessageReactions
  | Kind.inline_query | Kind.chosen_inline_result =>
      Some Toggle.handleInlineQueries
  | Kind.callback_query => Some Toggle.handleCallbackQueries
  | Kind.shipping_query => Some Toggle.handleShippingQueries
  | Kind.pre_checkout_query => Some Toggle.handlePreCheckoutQueries
  | Kind.poll => Some Toggle.handlePolls
  | Kind.poll_answer => Some Toggle.handlePollAnswers
  | Kind.my_chat_member | Kind.chat_member =>
      Some Toggle.handleChatMemberUpdates
  | Kind.chat_join_request => Some Toggle.handleChatJoinRequests
  | Kind.chat_boost | Kind.removed_chat_boost => Some Toggle.handleChatBoosts
  end.

(** A kind is dispatched when its field is present and its toggle, if it
    has one, is enabled. *)
Definition dispatched (this : UpdateHandler.t) (u : Update.t) (k : Kind.t)
  : bool :=
  field_present u k &&
  match governing_toggle k with
  | Some t => UpdateHandler.config this t
  | None => true
  end.

Definition kind_events (this : UpdateHandler.t) (c : UpdateContext.t)
           (k : Kind.t) : list Event :=
  if dispatched this (UpdateContext.update c) k
  then registry_events c (UpdateHandler.handlers this k)
  else [].

(** The events of the terminal action for a list of kinds. *)
Definition route_events (this : UpdateHandler.t) (c : UpdateContext.t)
           (ks : list Kind.t) : list Event :=
  flat_map (kind_events this c) ks.

(** *** Shapes of user stages *)

Definition is_log (i : instr) : bool :=
  match i with Log _ => true | _ => false end.

(** The stage logs, calls its continuation exactly once, logs, returns. *)
Fixpoint proceeds_once (st : Stage) : bool :=
  match st with
  | [] => false
  | Log _ :: rest => proceeds_once rest
  | Proceed :: rest => forallb is_log rest
  | Raise _ :: _ => false
  end.

(** The events of the leading [Log] instructions of a script. *)
Fixpoint leading_logs (st : Stage) : list Event :=
  match st with
  | Log l :: rest => StageLog l :: leading_logs rest
  | _ => []
  end.

(** The script that follows the first [Proceed]. *)
Fixpoint after_proceed (st : Stage) : Stage :=
  match st with
  | [] => []
  | Proceed :: rest => rest
  | _ :: rest => after_proceed rest
  end.

(** "Before proceed" and "after proceed" logic of a stage. *)
Definition before (st : Stage) : list Event := leading_logs st.
Definition after (st : Stage) : list Event := leading_logs (after_proceed st).

(** Registration of user stages, in list order, through [use]. *)
Definition register (stages : list Stage) (this : UpdateHandler.t)
  : UpdateHandler.t :=
  fold_left (fun h st => UpdateHandler.use (run_stage st) h) stages this.

(** The context [processUpdate] creates. *)
Definition fresh (update : Update.t) : UpdateContext.t :=
  ctx (UpdateHandler.initial update).

(** The way out of a stage that proceeded: when the continuation returned,
    the stage's remaining logs are appended; a failure passes through. *)
Definition then_after (evs : list Event) (r : Result unit * State)
  : Result unit * State :=
  match r with
  | (Ok _, s') => (Ok tt, add_trace evs s')
  | other => other
  end.

(** The [catch] block of [processUpdate]: log and rethrow. *)
Definition rethrow (r : Result unit * State) : Result unit * State :=
  match r with
  | (Throw e, s') =>
      (Throw e, add_trace [ConsoleError "Error processing update:" e] s')
  | other => other
  end.

(** *** Observations on the command code *)

(** Whether the character occurs in the string. *)
Fixpoint contains (c : ascii) (s : string) : bool :=
  match s with
  | EmptyString => false
  | String a rest => Ascii.eqb a c || contains c rest
  end.

Definition sep_string (c : ascii) : string := String c EmptyString.

Definition LF : string := String (ascii_of_nat 10) EmptyString.

(** The replies the sub-router sends itself go through its guard on
    [ctx.update.message]. *)
Definition reply_events (c : UpdateContext.t) (text : string) : list Event :=
  match Update.message (UpdateContext.update c) with
  | Some m => [SendMessage (Chat.id (Message.chat m)) text]
  | None => []
  end.

(** The key under which [command] files a definition's own name. *)
Definition registration_key (config : CommandConfig.t) : string :=
  match CommandConfig.ignoreCase config with
  | Some true => JS.toLowerCase (CommandConfig.command config)
  | _ => CommandConfig.command config
  end.


(** Whether the names that [command] lower-cases are strings of ASCII
    characters: the name and the aliases of a definition registered with
    [ignoreCase]. *)
Definition ascii_keys (config : CommandConfig.t) : bool :=
  match CommandConfig.ignoreCase config with
  | Some true =>
      forallb JS.is_ascii
        (CommandConfig.command config ::
         match CommandConfig.aliases config with
         | Some aliases => aliases
         | None => []
         end)
  | _ => true
  end.



(** Splitting "on whitespace", as the specification words the parsing
    rule: every whitespace character separates two tokens. *)
Definition is_whitespace (a : ascii) : bool :=
  let n := nat_of_ascii a in
  ((n =? 32) || ((9 <=? n) && (n <=? 13)))%nat.

Fixpoint split_whitespace (s : string) : list string :=
  match s with
  | EmptyString => [EmptyString]
  | String a rest =>
      if is_whitespace a then EmptyString :: split_whitespace rest
      else match split_whitespace rest with
           | tok :: toks => String a tok :: toks
           | [] => [String a EmptyString]
           end
  end.

Definition whitespace_parse (text : string)
  : string * list string * option string :=
  let tokens := split_whitespace text in
  let pieces := JS.split (JS.substring1 (hd EmptyString tokens)) "@" in
  (hd EmptyString pieces, tl tokens, nth_error pieces 1).

(** The context in which the parser leaves a recognised command. *)
Definition parsed (update : Update.t) (name : string) (arguments : list string)
           (bot : option string) : UpdateContext.t :=
  {| UpdateContext.update := update;
     UpdateContext.command := Some name;
     UpdateContext.args := Some arguments;
     UpdateContext.botUsername := bot |}.

Definition with_ctx (c : UpdateContext.t) (s : State) : State :=
  {| ctx := c; index := index s; trace := trace s |}.

(** ** Sample inputs *)

Module Sample.
Definition stageA : Stage := [Log "A before"; Proceed; Log "A after"].
Definition stageB : Stage := [Log "B before"; Proceed; Log "B after"].
Definition stageC : Stage := [Log "C before"; Proceed; Log "C after"].
(** A stage that denies the update, and one that fails. *)
Definition stageDeny : Stage := [Log "B denies"].
Definition stageFail : Stage := [Log "B before"; Raise "stage failed"; Proceed].

Definition h1 : Handler := {| hname := "h1"; hthrows := None |}.
Definition h2 : Handler := {| hname := "h2"; hthrows := Some "boom" |}.
Definition h3 : Handler := {| hname := "h3"; hthrows := None |}.
Definition onCallback : Handler := {| hname := "callback"; hthrows := None |}.

Definition chat42 : Chat.t := {| Chat.id := 42 |}.

Definition text_message (text : string) : Message.t :=
  {| Message.chat := chat42; Message.text := Some text |}.

(** An update of kind [message]. *)
Definition message_update (text : string) : Update.t :=
  Update.Build_t 1 (Some (text_message text))
    None None None None None None None None None None None
    None None None None None None None None None None.

(** An update of kind [business_message]. *)
Definition business_update (text : string) : Update.t :=
  Update.Build_t 2 None None None None (Some (text_message text))
    None None None None None None None
    None None None None None None None None None None.

(** A message that also carries a callback query. *)
Definition message_and_callback : Update.t :=
  Update.Build_t 3 (Some (text_message "hi"))
    None None None None None None None None None None
    (Some (payload "cb")) None None None None None None None None None None.

(** A callback query alone. *)
Definition callback_update : Update.t :=
  Update.Build_t 4 None
    None None None None None None None None None None
    (Some (payload "cb")) None None None None None None None None None None.

Definition bare : UpdateHandler.t :=
  UpdateHandler.new UpdateHandler.default_config.

(** Every toggle switched off. *)
Definition all_off : UpdateHandler.t :=
  UpdateHandler.onCallbackQuery onCallback
    (UpdateHandler.onMessage h1
       (UpdateHandler.new (fun _ => Given (Some false)))).

Definition start : CommandConfig.t :=
  {| CommandConfig.command := "start";
     CommandConfig.description := Some "Start the bot";
     CommandConfig.handler := {| hname := "start"; hthrows := None |};
     CommandConfig.aliases := None;
     CommandConfig.minArgs := None;
     CommandConfig.maxArgs := None;
     CommandConfig.ignoreCase := None |}.

Definition debug : CommandConfig.t :=
  {| CommandConfig.command := "debug";
     CommandConfig.description := None;
     CommandConfig.handler := {| hname := "debug"; hthrows := None |};
     CommandConfig.aliases := None;
     CommandConfig.minArgs := None;
     CommandConfig.maxArgs := None;
     CommandConfig.ignoreCase := None |}.

(** A command registered under the help name itself. *)
Definition help_cmd : CommandConfig.t :=
  {| CommandConfig.command := "help";
     CommandConfig.description := Some "Show help";
     CommandConfig.handler := {| hname := "help"; hthrows := None |};
     CommandConfig.aliases := None;
     CommandConfig.minArgs := None;
     CommandConfig.maxArgs := None;
     CommandConfig.ignoreCase := None |}.

(** [minArgs = 2]. *)
Definition cmd : CommandConfig.t :=
  {| CommandConfig.command := "cmd";
     CommandConfig.description := Some "Needs two arguments";
     CommandConfig.handler := {| hname := "cmd"; hthrows := None |};
     CommandConfig.aliases := None;
     CommandConfig.minArgs := Some 2%Z;
     CommandConfig.maxArgs := Some 3%Z;
     CommandConfig.ignoreCase := None |}.

(** [maxArgs = 0]. *)
Definition ping : CommandConfig.t :=
  {| CommandConfig.command := "ping";
     CommandConfig.description := Some "Ping";
     CommandConfig.handler := {| hname := "ping"; hthrows := None |};
     CommandConfig.aliases := Some ["p"];
     CommandConfig.minArgs := None;
     CommandConfig.maxArgs := Some 0%Z;
     CommandConfig.ignoreCase := None |}.

Definition router : CommandRouter.t :=
  CommandRouter.commands [start; debug; help_cmd; cmd]
    CommandRouter.createCommandRouter.

(** [commandParser()] followed by the router's middleware. *)
Definition bot : UpdateHandler.t :=
  UpdateHandler.use (CommandRouter.middleware router)
    (UpdateHandler.use commandParser bare).

(** The state in which the parser leaves the router. *)
Definition after_parser (update : Update.t) (name : string)
           (arguments : list string) : State :=
  with_ctx (parsed update name arguments None) (UpdateHandler.initial update).
End Sample.
(** *** Totality of the fuelled chain *)

(** A computation that, from [index] at least [i], neither exhausts the
    fuel nor lowers [index]. *)
Definition steady_from (i : nat) (m : M unit) : Prop :=
  forall s, i <= index s ->
    fst (m s) <> OutOfFuel /\ index s <= index (snd (m s)).

(** A middleware that keeps its continuation's steadiness. *)
Definition well_behaved (mw : MiddlewareFunction) : Prop :=
  forall i next, steady_from i next -> steady_from i (mw next).

(** Exposes the events of a finished run. *)
Ltac trace_norm :=
  unfold throw, rethrow, then_after, add_trace, advance, fresh;
  cbn [fst snd trace ctx index UpdateHandler.initial app];
  rewrite ?app_nil_r, <- ?app_assoc.

(** ** The rest of the dispatch code *)

(** *** getUpdateType and logger *)

(** [getUpdateType]: the name of the first populated field. *)
Definition getUpdateType (update : Update.t) : string :=
  if present (Update.message update) then "message"
  else if present (Update.edited_message update) then "edited_message"
  else if present (Update.channel_post update) then "channel_post"
  else if present (Update.edited_channel_post update) then "edited_channel_post"
  else if present (Update.business_connection update) then "business_connection"
  else if present (Update.business_message update) then "business_message"
  else if present (Update.edited_business_message update)
       then "edited_business_message"
  else if present (Update.business_messages_deleted update)
       then "business_messages_deleted"
  else if present (Update.message_reaction update) then "message_reaction"
  else if present (Update.message_reaction_count update)
       then "message_reaction_count"
  else if present (Update.inline_query update) then "inline_query"
  else if present (Update.chosen_inline_result update)
       then "chosen_inline_result"
  else if present (Update.callback_query update) then "callback_query"
  else if present (Update.shipping_query update) then "shipping_query"
  else if present (Update.pre_checkout_query update) then "pre_checkout_query"
  else if present (Update.poll update) then "poll"
  else if present (Update.poll_answer update) then "poll_answer"
  else if present (Update.my_chat_member update) then "my_chat_member"
  else if present (Update.chat_member update) then "chat_member"
  else if present (Update.chat_join_request update) then "chat_join_request"
  else if present (Update.chat_boost update) then "chat_boost"
  else if present (Update.removed_chat_boost update) then "removed_chat_boost"
  else "unknown".

Module LogLevel.
Inductive t := info | debug | error.

Definition is_debug (l : t) : bool :=
  match l with debug => true | _ => false end.

Definition is_info (l : t) : bool :=
  match l with info => true | _ => false end.

Definition is_error (l : t) : bool :=
  match l with error => true | _ => false end.
End LogLevel.

(** The readings of the clock during one run of [logger]: [Date.now()] and
    [new Date().toISOString()] when the stage starts, and again when it
    writes its second line. *)
Module Clock.
Record t := {
  start : Z;
  iso_start : string;
  finish : Z;
  iso_finish : string
}.
End Clock.

(** [console.log(text)]: recorded as a log line of the stage that writes
    it. *)
Definition console_log (text : string) : M unit :=
  emit (StageLog text).

(** The three template literals of [logger]. *)
Definition processing_line (iso updateType : string) (id : Z) : string :=
  ("[" ++ iso ++ "] Processing " ++ updateType ++ " update "
       ++ JS.number_to_string id)%string.

Definition completed_line (iso updateType : string) (id duration : Z)
  : string :=
  ("[" ++ iso ++ "] Completed " ++ updateType ++ " update "
       ++ JS.number_to_string id ++ " in " ++ JS.number_to_string duration
       ++ "ms")%string.

Definition error_line (iso updateType : string) (id : Z) : string :=
  ("[" ++ iso ++ "] Error processing " ++ updateType ++ " update "
       ++ JS.number_to_string id ++ ":")%string.

(** [logger(options)]: the middleware it returns; [options.logLevel]
    defaults to [info]. *)
Definition logger (options : option LogLevel.t) (clock : Clock.t)
  : MiddlewareFunction :=
  let logLevel := match options with
                  | Some l => l
                  | None => LogLevel.info
                  end in
  fun next =>
    c <- get_ctx ;;
    let updateType := getUpdateType (UpdateContext.update c) in
    when (LogLevel.is_debug logLevel || LogLevel.is_info logLevel)
         (console_log
            (processing_line (Clock.iso_start clock) updateType
               (Update.update_id (UpdateContext.update c)))) ;;
    try_catch
      (next ;;
       when (LogLevel.is_debug logLevel)
            (c1 <- get_ctx ;;
             console_log
               (completed_line (Clock.iso_finish clock) updateType
                  (Update.update_id (UpdateContext.update c1))
                  (Clock.finish clock - Clock.start clock))))
      (fun error =>
         when (LogLevel.is_error logLevel || LogLevel.is_info logLevel
               || LogLevel.is_debug logLevel)
              (c1 <- get_ctx ;;
               console_error
                 (error_line (Clock.iso_finish clock) updateType
                    (Update.update_id (UpdateContext.update c1)))
                 error) ;;
         throw error).

(** *** CloudflareWorkersAdapter *)

(** The body of a request as [request.json()] and the validation of
    [handleWebhook] see it: text that is not JSON, a JSON value that is
    falsy or has no numeric [update_id], or an update. *)
Inductive Body :=
| InvalidJson (e : Error)
| Json (update : option Update.t).

(** A request: its method, the path of its URL, the
    [X-Telegram-Bot-Api-Secret-Token] header and its body. *)
Module Request.
Record t := {
  method : string;
  pathname : string;
  secret_token : option string;
  body : Body
}.
End Request.

Module Response.
Record t := { text : string; status : Z }.
End Response.

(** [new Response(text, { status })]. *)
Definition respond (text : string) (status : Z) : Response.t :=
  {| Response.text := text; Response.status := status |}.

Module CloudflareWorkerEnv.
Record t := { TELEGRAM_WEBHOOK_SECRET : option string }.
End CloudflareWorkerEnv.

Module CloudflareWorkersAdapter.
Record t := {
  updateHandler : UpdateHandler.t;
  verifyWebhookSecret : bool;
  errorHandler : option (Error -> Request.t -> Response.t)
}.

(** [constructor(config)]: verification is on unless it is set to [false]. *)
Definition new (handler : UpdateHandler.t) (verify : option bool)
           (onError : option (Error -> Request.t -> Response.t)) : t :=
  {| updateHandler := handler;
     verifyWebhookSecret := match verify with
                            | Some false => false
                            | _ => true
                            end;
     errorHandler := onError |}.

(** [secretToken !== env.TELEGRAM_WEBHOOK_SECRET]. *)
Definition differs (header secret : option string) : bool :=
  match header, secret with
  | Some h, Some s => negb (String.eqb h s)
  | None, None => false
  | _, _ => true
  end.

(** The [catch] block of [handleWebhook]. *)
Definition failed (this : t) (request : Request.t) (error : Error)
           (events : list Event) : Response.t * list Event :=
  (match errorHandler this with
   | Some handler => handler error request
   | None => respond "Internal Server Error" 500
   end,
   events ++ [ConsoleError "Error handling webhook:" error]).

(** [handleWebhook(request, env)]: the response and the trace.  The result
    is [None] only when the fuel of the chain runs out. *)
Definition handleWebhook (this : t) (request : Request.t)
           (env : CloudflareWorkerEnv.t) : option (Response.t * list Event) :=
  if negb (String.eqb (Request.method request) "POST") then
    Some (respond "Method Not Allowed" 405, [])
  else if verifyWebhookSecret this
          && truthy_string (CloudflareWorkerEnv.TELEGRAM_WEBHOOK_SECRET env)
          && differs (Request.secret_token request) (CloudflareWorkerEnv.TELEGRAM_WEBHOOK_SECRET env)
  then Some (respond "Unauthorized" 401, [])
  else
    match Request.body request with
    | InvalidJson error => Some (failed this request error [])
    | Json None =>
        Some (respond "Bad Request: Invalid update format" 400, [])
    | Json (Some update) =>
        match UpdateHandler.processUpdate (updateHandler this) update with
        | (Ok _, s) => Some (respond "OK" 200, trace s)
        | (Throw error, s) => Some (failed this request error (trace s))
        | (OutOfFuel, _) => None
        end
    end.

(** [createWorkerHandler(adapter, options)]: the fetch handler it returns. *)
Definition createWorkerHandler (adapter : t)
           (webhookPath healthCheckPath : option string)
           (request : Request.t) (env : CloudflareWorkerEnv.t)
  : option (Response.t * list Event) :=
  let webhook := match webhookPath with Some p => p | None => "/webhook" end in
  let health := match healthCheckPath with Some p => p | None => "/health" end in
  if String.eqb (Request.pathname request) health then
    Some (respond "OK" 200, [])
  else if String.eqb (Request.pathname request) webhook then
    handleWebhook adapter request env
  else Some (respond "Not Found" 404, []).
End CloudflareWorkersAdapter.

(** *** Views used by the further properties *)

(** The name [getUpdateType] gives a kind. *)
Definition kind_name (k : Kind.t) : string :=
  match k with
  | Kind.message => "message"
  | Kind.edited_message => "edited_message"
  | Kind.channel_post => "channel_post"
  | Kind.edited_channel_post => "edited_channel_post"
  | Kind.business_connection => "business_connection"
  | Kind.business_message => "business_message"
  | Kind.edited_business_message => "edited_business_message"
  | Kind.business_messages_deleted => "business_messages_deleted"
  | Kind.message_reaction => "message_reaction"
  | Kind.message_reaction_count => "message_reaction_count"
  | Kind.inline_query => "inline_query"
  | Kind.chosen_inline_result => "chosen_inline_result"
  | Kind.callback_query => "callback_query"
  | Kind.shipping_query => "shipping_query"
  | Kind.pre_checkout_query => "pre_checkout_query"
  | Kind.poll => "poll"
  | Kind.poll_answer => "poll_answer"
  | Kind.my_chat_member => "my_chat_member"
  | Kind.chat_member => "chat_member"
  | Kind.chat_join_request => "chat_join_request"
  | Kind.chat_boost => "chat_boost"
  | Kind.removed_chat_boost => "removed_chat_boost"
  end.

(** Handlers registered one after the other through the [on...] methods. *)
Definition register_handlers (regs : list (Kind.t * Handler))
           (this : UpdateHandler.t) : UpdateHandler.t :=
  fold_left (fun h r => UpdateHandler.on (fst r) (snd r) h) regs this.

(** The keys [command] sets for a definition: its name and its aliases. *)
Definition registration_keys (config : CommandConfig.t) : list string :=
  let key (name : string) :=
    match CommandConfig.ignoreCase config with
    | Some true => JS.toLowerCase name
    | _ => name
    end in
  map key (CommandConfig.command config ::
           match CommandConfig.aliases config with
           | Some aliases => aliases
           | None => []
           end).

(** The keys of a map, in insertion order. *)
Definition map_keys {V : Type} (m : list (string * V)) : list string :=
  map fst m.

(** The message [commandParser] reads:
    [ctx.update.message || ctx.update.business_message]. *)
Definition command_source (update : Update.t) : option Message.t :=
  match Update.message update with
  | Some m => Some m
  | None => Update.business_message update
  end.

(** Whether that message has a text that starts with the marker. *)
Definition marked (update : Update.t) : bool :=
  match command_source update with
  | Some m =>
      match Message.text m with
      | Some text => JS.startsWith text "/"
      | None => false
      end
  | None => false
  end.

(** A marker followed by nothing, by a space or by [@]. *)
Definition bare_marker (text : string) : bool :=
  match text with
  | String a EmptyString => Ascii.eqb a "/"
  | String a (String b _) =>
      Ascii.eqb a "/" && (Ascii.eqb b " " || Ascii.eqb b "@")
  | EmptyString => false
  end.

(** Whether the secret check of [handleWebhook] lets the request pass:
    verification is off, no non-empty secret is configured, or the header
    carries the secret. *)
Definition secret_accepted (adapter : CloudflareWorkersAdapter.t)
           (request : Request.t) (env : CloudflareWorkerEnv.t) : Prop :=
  CloudflareWorkersAdapter.verifyWebhookSecret adapter = false \/
  truthy_string (CloudflareWorkerEnv.TELEGRAM_WEBHOOK_SECRET env) = false \/
  Request.secret_token request =
    CloudflareWorkerEnv.TELEGRAM_WEBHOOK_SECRET env.

(** The requests that can make the fetch handler run the update handler:
    a POST to the webhook path, which is not the health path, that passes
    the secret check and carries an update. *)
Definition reaches_pipeline (adapter : CloudflareWorkersAdapter.t)
           (webhookPath healthCheckPath : option string)
           (request : Request.t) (env : CloudflareWorkerEnv.t) : bool :=
  let webhook := match webhookPath with Some p => p | None => "/webhook" end in
  let health := match healthCheckPath with Some p => p | None => "/health" end in
  negb (String.eqb (Request.pathname request) health)
  && String.eqb (Request.pathname request) webhook
  && String.eqb (Request.method request) "POST"
  && negb (CloudflareWorkersAdapter.verifyWebhookSecret adapter
           && truthy_string (CloudflareWorkerEnv.TELEGRAM_WEBHOOK_SECRET env)
           && CloudflareWorkersAdapter.differs
                (Request.secret_token request)
                (CloudflareWorkerEnv.TELEGRAM_WEBHOOK_SECRET env))
  && match Request.body request with
     | Json (Some _) => true
     | _ => false
     end.

(** Whether [command(config)] files [config] under the key [k]. *)
Definition binds (k : string) (config : CommandConfig.t) : bool :=
  existsb (String.eqb k) (registration_keys config).

(** The definition registered last among [configs] that is filed under
    [k]. *)
Definition last_binding (k : string) (configs : list CommandConfig.t)
  : option CommandConfig.t :=
  find (binds k) (rev configs).

Module SampleRequest.
(** A webhook delivery of an update, with the secret [s3cret]. *)
Definition delivery (update : Update.t) : Request.t :=
  {| Request.method := "POST";
     Request.pathname := "/webhook";
     Request.secret_token := Some "s3cret";
     Request.body := Json (Some update) |}.

Definition env : CloudflareWorkerEnv.t :=
  {| CloudflareWorkerEnv.TELEGRAM_WEBHOOK_SECRET := Some "s3cret" |}.

(** No secret configured. *)
Definition open_env : CloudflareWorkerEnv.t :=
  {| CloudflareWorkerEnv.TELEGRAM_WEBHOOK_SECRET := None |}.

Definition adapter (handler : UpdateHandler.t) : CloudflareWorkersAdapter.t :=
  CloudflareWorkersAdapter.new handler None None.
End SampleRequest.

(** * Properties *)

(** ** States and computations *)

Lemma add_trace_nil s : add_trace [] s = s.
Proof. destruct s; unfold add_trace; simpl; now rewrite app_nil_r. Qed.

Lemma add_trace_add_trace a b s :
  add_trace b (add_trace a s) = add_trace (a ++ b) s.
Proof. unfold add_trace; simpl; now rewrite app_assoc. Qed.

Lemma advance_same s : advance (index s) [] s = s.
Proof. destruct s; unfold advance; simpl; now rewrite app_nil_r. Qed.

Lemma bind_unfold {A B} (m : M A) (k : A -> M B) s :
  bind m k s =
  match m s with
  | (Ok a, s') => k a s'
  | (Throw e, s') => (Throw e, s')
  | (OutOfFuel, s') => (OutOfFuel, s')
  end.
Proof. reflexivity. Qed.

Lemma then_after_then_after a b r :
  then_after b (then_after a r) = then_after (a ++ b) r.
Proof.
  destruct r as [[[]| |] s]; simpl; auto. now rewrite add_trace_add_trace.
Qed.

(** ** Handlers and routing *)

(** A handler call records the context and returns or throws. *)
Lemma call_run h s :
  call h s =
  (match hthrows h with Some e => Throw e | None => Ok tt end,
   add_trace [HandlerCall (hname h) (ctx s)] s).
Proof.
  unfold call, bind, get_ctx, emit, add_trace; simpl.
  now destruct (hthrows h).
Qed.

(** [runHandlers] always returns; each handler leaves its call and, when it
    throws, the console line. *)
Lemma runHandlers_run hs : forall s,
  UpdateHandler.runHandlers hs s =
  (Ok tt, add_trace (registry_events (ctx s) hs) s).
Proof.
  induction hs as [|h hs IH]; intros s; simpl.
  - now rewrite add_trace_nil.
  - unfold bind, try_catch. rewrite call_run.
    unfold handler_events.
    destruct (hthrows h) as [e|]; simpl.
    + unfold console_error, emit; simpl. rewrite IH. simpl.
      unfold add_trace; simpl. now rewrite <- !app_assoc.
    + rewrite IH. unfold add_trace; simpl. now rewrite <- !app_assoc.
Qed.

Lemma when_runHandlers b hs s :
  when b (UpdateHandler.runHandlers hs) s =
  (Ok tt, add_trace (if b then registry_events (ctx s) hs else []) s).
Proof.
  destruct b; simpl.
  - apply runHandlers_run.
  - now rewrite add_trace_nil.
Qed.

Lemma bind_when_runHandlers b hs (k : M unit) s :
  (when b (UpdateHandler.runHandlers hs) ;; k) s =
  k (add_trace (if b then registry_events (ctx s) hs else []) s).
Proof. unfold bind. now rewrite when_runHandlers. Qed.

(** [routeUpdate] always returns; it leaves the events of the dispatched
    kinds, in declaration order. *)
Lemma routeUpdate_run this s :
  UpdateHandler.routeUpdate this s =
  (Ok tt, add_trace (route_events this (ctx s) declaration_order) s).
Proof.
  unfold UpdateHandler.routeUpdate.
  unfold bind at 1. unfold get_ctx at 1.
  cbv zeta.
  repeat (rewrite bind_when_runHandlers; rewrite ?add_trace_add_trace; simpl ctx).
  rewrite when_runHandlers. rewrite ?add_trace_add_trace; simpl ctx.
  f_equal. f_equal.
  unfold route_events, declaration_order, kind_events, dispatched; simpl.
  rewrite andb_true_r, app_nil_r, <- !app_assoc.
  reflexivity.
Qed.

Lemma route_events_app this c ks1 ks2 :
  route_events this c (ks1 ++ ks2) =
  route_events this c ks1 ++ route_events this c ks2.
Proof. apply flat_map_app. Qed.

Lemma route_events_cons this c k ks :
  route_events this c (k :: ks) =
  kind_events this c k ++ route_events this c ks.
Proof. reflexivity. Qed.

Lemma route_events_none this c ks :
  (forall k, dispatched this (UpdateContext.update c) k = false) ->
  route_events this c ks = [].
Proof.
  intros Hnone. induction ks as [|k ks IH]; [reflexivity|].
  rewrite route_events_cons, IH. unfold kind_events. now rewrite Hnone.
Qed.

Lemma Kind_eqb_refl k : Kind.eqb k k = true.
Proof. now destruct k. Qed.

(** ** The middleware chain *)

(** Past the last stage, [dispatch] is the terminal action, whatever the fuel. *)
Lemma dispatch_past_end mws next fuel s :
  List.length mws <= index s ->
  UpdateHandler.dispatch mws next fuel s = next s.
Proof.
  intros H. destruct fuel; simpl;
    destruct (Nat.leb_spec (List.length mws) (index s)); auto; lia.
Qed.

(** At a stage, [dispatch] increments [index] and calls the stage with
    itself as continuation. *)
Lemma dispatch_at done mw rest next fuel s :
  index s = List.length done ->
  UpdateHandler.dispatch (done ++ mw :: rest) next (S fuel) s =
  mw (UpdateHandler.dispatch (done ++ mw :: rest) next fuel)
     (advance (S (List.length done)) [] s).
Proof.
  intros Hi. simpl.
  destruct (Nat.leb_spec (List.length (done ++ mw :: rest)) (index s)) as [H|H].
  - rewrite length_app in H. simpl in H. lia.
  - rewrite Hi, nth_error_app2, Nat.sub_diag by lia. simpl.
    unfold bind, set_index, advance. simpl. now rewrite app_nil_r.
Qed.

Lemma run_stage_logs st next s :
  forallb is_log st = true ->
  run_stage st next s = (Ok tt, add_trace (leading_logs st) s).
Proof.
  revert s. induction st as [|i st IH]; intros s H; simpl in *.
  - now rewrite add_trace_nil.
  - destruct i; simpl in H; try discriminate.
    unfold bind, emit. simpl. rewrite IH by assumption.
    unfold add_trace; simpl. now rewrite <- app_assoc.
Qed.

Lemma run_stage_logs_then l rest next s :
  run_stage (map Log l ++ rest) next s =
  run_stage rest next (add_trace (map StageLog l) s).
Proof.
  revert s. induction l as [|x l IH]; intros s; simpl.
  - now rewrite add_trace_nil.
  - unfold bind, emit; simpl. rewrite IH. f_equal.
    unfold add_trace; simpl. now rewrite <- app_assoc.
Qed.

Lemma run_stage_proceeds_once st next s :
  proceeds_once st = true ->
  run_stage st next s = then_after (after st) (next (add_trace (before st) s)).
Proof.
  revert s. induction st as [|i st IH]; intros s H; simpl in *; try discriminate.
  destruct i; try discriminate.
  - unfold bind, emit; simpl. rewrite IH by assumption.
    unfold before, after; simpl. f_equal. f_equal.
    unfold add_trace; simpl. now rewrite <- app_assoc.
  - unfold before, after; simpl. rewrite add_trace_nil.
    unfold bind, then_after. destruct (next s) as [[[]| |] s']; auto.
    now rewrite run_stage_logs.
Qed.

(** Entering a run of stages that proceed once: their "before" logs on the
    way in, their "after" logs in reverse order on the way out, and the
    fuel they use is their number. *)
Lemma dispatch_prefix stages : forall done rest next fuel s,
  index s = List.length done ->
  Forall (fun st => proceeds_once st = true) stages ->
  UpdateHandler.dispatch (done ++ map run_stage stages ++ rest) next
                         (List.length stages + fuel) s =
  then_after (flat_map after (rev stages))
    (UpdateHandler.dispatch (done ++ map run_stage stages ++ rest) next fuel
       (advance (List.length done + List.length stages)
                (flat_map before stages) s)).
Proof.
  induction stages as [|st stages IH]; intros done rest next fuel s Hi Hall.
  - simpl. rewrite Nat.add_0_r, <- Hi, advance_same.
    destruct (UpdateHandler.dispatch _ _ _ _) as [[[]| |] s']; simpl; auto.
    now rewrite add_trace_nil.
  - inversion Hall as [|? ? Hst Hrest]; subst.
    cbn [map app List.length Nat.add].
    rewrite dispatch_at by assumption.
    rewrite run_stage_proceeds_once by assumption.
    assert (E : forall (l r : list MiddlewareFunction) x,
               l ++ x :: r = (l ++ [x]) ++ r)
      by (intros; now rewrite <- app_assoc).
    rewrite (E done (map run_stage stages ++ rest) (run_stage st)).
    rewrite IH; [| unfold add_trace, advance; simpl; rewrite length_app; simpl; lia | assumption].
    rewrite then_after_then_after.
    cbn [rev flat_map]. rewrite flat_map_app. cbn [flat_map]. rewrite app_nil_r.
    f_equal. f_equal; [symmetry; apply E|].
    unfold advance, add_trace; simpl. rewrite length_app. simpl.
    unfold MiddlewareFunction.
    f_equal; [lia|]. now rewrite app_nil_r, <- app_assoc.
Qed.

Lemma dispatch_suffix done post next s :
  index s = List.length done ->
  Forall (fun st => proceeds_once st = true) post ->
  UpdateHandler.dispatch (done ++ map run_stage post) next (List.length post) s =
  then_after (flat_map after (rev post))
    (next (advance (List.length done + List.length post)
                   (flat_map before post) s)).
Proof.
  intros Hi Hpost.
  pose proof (dispatch_prefix post done [] next 0 s Hi Hpost) as E.
  rewrite app_nil_r, Nat.add_0_r in E. rewrite E.
  rewrite dispatch_past_end; [reflexivity|].
  unfold advance; simpl. rewrite length_app, length_map. lia.
Qed.

Lemma register_fields stages : forall this,
  UpdateHandler.middleware (register stages this) =
    UpdateHandler.middleware this ++ map run_stage stages /\
  UpdateHandler.handlers (register stages this) = UpdateHandler.handlers this /\
  UpdateHandler.config (register stages this) = UpdateHandler.config this.
Proof.
  induction stages as [|st stages IH]; intros this; simpl.
  - now rewrite app_nil_r.
  - destruct (IH (UpdateHandler.use (run_stage st) this)) as (Hm & Hh & Hc).
    unfold register in *. rewrite Hm, Hh, Hc. simpl.
    now rewrite <- app_assoc.
Qed.

(** [processUpdate] once the leading stages that proceed once are entered. *)
Lemma processUpdate_prefix this pre rest update :
  UpdateHandler.middleware this = map run_stage pre ++ rest ->
  Forall (fun st => proceeds_once st = true) pre ->
  UpdateHandler.processUpdate this update =
  rethrow
    (then_after (flat_map after (rev pre))
       (UpdateHandler.dispatch (map run_stage pre ++ rest)
          (UpdateHandler.routeUpdate this) (List.length rest)
          (advance (List.length pre) (flat_map before pre)
                   (UpdateHandler.initial update)))).
Proof.
  intros Hm Hpre.
  unfold UpdateHandler.processUpdate, try_catch, UpdateHandler.runMiddleware.
  unfold bind at 1.
  change (set_index 0 (UpdateHandler.initial update))
    with (Ok tt, UpdateHandler.initial update).
  cbv iota. rewrite Hm, length_app, length_map.
  pose proof (dispatch_prefix pre [] rest (UpdateHandler.routeUpdate this)
                (List.length rest) (UpdateHandler.initial update)
                eq_refl Hpre) as E.
  cbn [app List.length Nat.add] in E. rewrite E. clear E. unfold rethrow.
  match goal with |- context [then_after ?a ?b] =>
    destruct (then_after a b) as [[[]| |] s'] end; reflexivity.
Qed.

Lemma processUpdate_proceeding this stages update :
  UpdateHandler.middleware this = map run_stage stages ->
  Forall (fun st => proceeds_once st = true) stages ->
  UpdateHandler.processUpdate this update =
  (Ok tt,
   advance (List.length stages)
           (flat_map before stages
            ++ route_events this (fresh update) declaration_order
            ++ flat_map after (rev stages))
           (UpdateHandler.initial update)).
Proof.
  intros Hm Hall.
  rewrite (processUpdate_prefix this stages [] update)
    by (rewrite ?app_nil_r; assumption).
  rewrite dispatch_past_end
    by (simpl; rewrite app_nil_r, length_map; lia).
  rewrite routeUpdate_run. trace_norm. reflexivity.
Qed.

(** ** The fuel suffices *)

Lemma steady_bind i (m k : M unit) :
  steady_from i m -> steady_from i k -> steady_from i (m ;; k).
Proof.
  intros Hm Hk s Hs. rewrite bind_unfold.
  destruct (Hm s Hs) as (Hf & Hi).
  destruct (m s) as [[[]|e|] s']; cbn [fst snd] in *.
  - destruct (Hk s' ltac:(lia)) as (Hf' & Hi'). split; [assumption|lia].
  - split; [discriminate|assumption].
  - contradiction.
Qed.

Lemma steady_keeps_index i (m : M unit) :
  (forall s, fst (m s) <> OutOfFuel /\ index (snd (m s)) = index s) ->
  steady_from i m.
Proof. intros H s _. destruct (H s) as (Hf & Hi). split; [assumption|lia]. Qed.

Lemma call_keeps_index h s :
  fst (call h s) <> OutOfFuel /\ index (snd (call h s)) = index s.
Proof.
  rewrite call_run. cbn. split; [destruct (hthrows h); discriminate|reflexivity].
Qed.

Lemma routeUpdate_steady this i : steady_from i (UpdateHandler.routeUpdate this).
Proof.
  apply steady_keeps_index. intros s. rewrite routeUpdate_run.
  split; [discriminate|reflexivity].
Qed.

Lemma run_stage_well_behaved st : well_behaved (run_stage st).
Proof.
  intros i next Hnext. induction st as [|ins st IH]; cbn [run_stage].
  - apply steady_keeps_index. intros s. split; [discriminate|reflexivity].
  - destruct ins.
    + apply steady_bind; [|exact IH].
      apply steady_keeps_index. intros s. split; [discriminate|reflexivity].
    + apply steady_bind; assumption.
    + apply steady_keeps_index. intros s. split; [discriminate|reflexivity].
Qed.

Lemma commandParser_well_behaved : well_behaved commandParser.
Proof.
  intros i next Hnext. unfold commandParser.
  intros s Hs. rewrite bind_unfold. cbn [get_ctx].
  match goal with |- context [bind ?m _] => set (assign := m) end.
  assert (Ha : steady_from i assign).
  { apply steady_keeps_index. intros s0. subst assign.
    destruct (match Update.message _ with Some m => Some m | None => _ end)
      as [[ch [tx|]]|]; try (split; [discriminate|reflexivity]).
    destruct (JS.startsWith tx "/"); split; try discriminate; reflexivity. }
  exact (steady_bind i assign next Ha Hnext s Hs).
Qed.

Lemma reply_keeps_index c text s :
  fst (CommandRouter.reply c text s) <> OutOfFuel /\
  index (snd (CommandRouter.reply c text s)) = index s.
Proof.
  unfold CommandRouter.reply.
  destruct (Update.message _); split; try discriminate; reflexivity.
Qed.

Lemma router_well_behaved this : well_behaved (CommandRouter.middleware this).
Proof.
  intros i next Hnext s Hs. unfold CommandRouter.middleware.
  rewrite bind_unfold. cbn [get_ctx].
  pose proof (fun h => call_keeps_index h s) as Hcall.
  pose proof (fun t => reply_keeps_index (ctx s) t s) as Hreply.
  assert (K : forall m : M unit,
             (fst (m s) <> OutOfFuel /\ index (snd (m s)) = index s) ->
             fst (m s) <> OutOfFuel /\ index s <= index (snd (m s)))
    by (intros m (Hf & Hi); split; [assumption|lia]).
  destruct (negb (truthy_string (UpdateContext.command (ctx s)))).
  - destruct (CommandRouter.defaultHandler this); [apply K, Hcall|now apply Hnext].
  - destruct (String.eqb _ _); [apply K, Hreply|].
    destruct (JS.map_get _ _).
    + destruct (_ && _); [apply K, Hreply|].
      destruct (_ && _); [apply K, Hreply|apply K, Hcall].
    + destruct (CommandRouter.unknownCommandHandler this);
        [apply K, Hcall|apply K, Hreply].
Qed.

Lemma dispatch_steady mws next :
  Forall well_behaved mws -> steady_from 0 next ->
  forall fuel,
    steady_from (List.length mws - fuel) (UpdateHandler.dispatch mws next fuel).
Proof.
  intros Hall Hnext. induction fuel as [|fuel IH]; intros s Hs.
  - rewrite dispatch_past_end by lia. apply Hnext. lia.
  - cbn [UpdateHandler.dispatch].
    destruct (Nat.leb_spec (List.length mws) (index s)) as [Hle|Hlt].
    + apply Hnext. lia.
    + destruct (nth_error mws (index s)) as [mw|] eqn:Hnth.
      * rewrite bind_unfold. cbn [set_index].
        assert (Hmw : well_behaved mw).
        { rewrite Forall_forall in Hall. apply Hall.
          eapply nth_error_In; eassumption. }
        destruct (Hmw _ _ IH
                    {| ctx := ctx s; index := S (index s); trace := trace s |})
          as (Hf & Hi); [cbn; lia|].
        split; [assumption|]. cbn [index] in Hi. lia.
      * apply nth_error_None in Hnth. lia.
Qed.

(** With well-behaved stages the fuel [runMiddleware] supplies suffices:
    [processUpdate] returns or throws. *)
Lemma processUpdate_total this update :
  Forall well_behaved (UpdateHandler.middleware this) ->
  fst (UpdateHandler.processUpdate this update) <> OutOfFuel.
Proof.
  intros Hall. unfold UpdateHandler.processUpdate, try_catch,
    UpdateHandler.runMiddleware.
  rewrite bind_unfold.
  change (set_index 0 (UpdateHandler.initial update))
    with (Ok tt, UpdateHandler.initial update). cbv iota.
  pose proof (dispatch_steady _ _ Hall
                (routeUpdate_steady this 0)
                (List.length (UpdateHandler.middleware this))
                (UpdateHandler.initial update)) as H.
  rewrite Nat.sub_diag in H. destruct (H (Nat.le_0_l _)) as (Hf & _).
  destruct (UpdateHandler.dispatch _ _ _ _) as [[[]|e|] s']; cbn in *;
    try discriminate; contradiction.
Qed.

(** ** The pipeline claims *)

(** C1 (onion ordering).  Stages registered in order on an UpdateHandler,
    each calling its continuation exactly once: [processUpdate] returns, and
    the trace is the "before" logic of the stages in registration order,
    then the events of the terminal action [routeUpdate], then the "after"
    logic of the stages in reverse order. *)
Theorem onion_ordering (h0 : UpdateHandler.t) (stages : list Stage)
        (update : Update.t) :
  UpdateHandler.middleware h0 = [] ->
  Forall (fun st => proceeds_once st = true) stages ->
  let this := register stages h0 in
  let r := UpdateHandler.processUpdate this update in
  fst r = Ok tt /\
  trace (snd r) =
    flat_map before stages
    ++ route_events this (fresh update) declaration_order
    ++ flat_map after (rev stages).
Proof.
  intros H0 Hall this r. subst r.
  destruct (register_fields stages h0) as (Hm & _ & _). rewrite H0 in Hm.
  simpl in Hm. fold this in Hm.
  rewrite (processUpdate_prefix this stages [] update)
    by (rewrite ?app_nil_r; assumption).
  rewrite dispatch_past_end
    by (simpl; rewrite app_nil_r, length_map; lia).
  rewrite routeUpdate_run. simpl.
  split; [reflexivity|]. now rewrite <- app_assoc.
Qed.

(** Stages A, B, C around one message handler: A, B, C, the handler, then
    C, B, A. *)
Lemma onion_ordering_witness :
  let r := UpdateHandler.processUpdate
             (register [Sample.stageA; Sample.stageB; Sample.stageC]
                       (UpdateHandler.onMessage Sample.h1 Sample.bare))
             (Sample.message_update "hi") in
  fst r = Ok tt /\
  trace (snd r) =
    [StageLog "A before"; StageLog "B before"; StageLog "C before";
     HandlerCall "h1" (fresh (Sample.message_update "hi"));
     StageLog "C after"; StageLog "B after"; StageLog "A after"].
Proof.
  apply (onion_ordering (UpdateHandler.onMessage Sample.h1 Sample.bare)
           [Sample.stageA; Sample.stageB; Sample.stageC]
           (Sample.message_update "hi")).
  - reflexivity.
  - repeat constructor.
Defined.

(** C5 (short-circuit).  When the stages before B proceed once and B
    returns without calling its continuation, [processUpdate] returns and
    the trace holds the "before" logic of the earlier stages, B's own logs
    and the "after" logic of the earlier stages in reverse order: no event
    of a later stage, of the terminal action or of a handler, whatever the
    later stages and the registries are. *)
Theorem short_circuit (h0 : UpdateHandler.t) (pre : list Stage) (B : Stage)
        (post : list Stage) (update : Update.t) :
  UpdateHandler.middleware h0 = [] ->
  Forall (fun st => proceeds_once st = true) pre ->
  forallb is_log B = true ->
  let this := register (pre ++ B :: post) h0 in
  let r := UpdateHandler.processUpdate this update in
  fst r = Ok tt /\
  trace (snd r) =
    flat_map before pre ++ leading_logs B ++ flat_map after (rev pre).
Proof.
  intros H0 Hpre HB this r. subst r.
  destruct (register_fields (pre ++ B :: post) h0) as (Hm & _ & _).
  rewrite H0 in Hm. simpl in Hm. fold this in Hm.
  rewrite map_app in Hm. cbn [map] in Hm.
  rewrite (processUpdate_prefix this pre _ update Hm Hpre).
  cbn [List.length].
  rewrite dispatch_at by (simpl; now rewrite length_map).
  rewrite run_stage_logs by assumption. simpl.
  split; [reflexivity|]. now rewrite app_nil_r, <- app_assoc.
Qed.

(** A, a denying B and C: C and the message handler never run. *)
Lemma short_circuit_witness :
  let r := UpdateHandler.processUpdate
             (register [Sample.stageA; Sample.stageDeny; Sample.stageC]
                       (UpdateHandler.onMessage Sample.h1 Sample.bare))
             (Sample.message_update "hi") in
  fst r = Ok tt /\
  trace (snd r) =
    [StageLog "A before"; StageLog "B denies"; StageLog "A after"].
Proof.
  apply (short_circuit (UpdateHandler.onMessage Sample.h1 Sample.bare)
           [Sample.stageA] Sample.stageDeny [Sample.stageC]
           (Sample.message_update "hi")).
  - reflexivity.
  - repeat constructor.
  - reflexivity.
Defined.

(** C3 (middleware errors propagate).  A stage B whose own logic throws [e],
    either before calling its continuation ([proceeded = false]) or after
    the continuation returned ([proceeded = true]), behind stages that
    proceed once: [processUpdate] throws [e] to its caller.  Before the
    throw the trace holds what ran; after it nothing runs, neither the
    rest of B, nor the "after" logic of the earlier stages, nor, when B had
    not proceeded, any later stage, the terminal action or a handler.  The
    [catch] of [processUpdate] writes the console line and rethrows. *)
Theorem middleware_error_propagates (h0 : UpdateHandler.t)
        (pre post : list Stage) (l1 l2 : list string) (proceeded : bool)
        (e : Error) (tail : Stage) (update : Update.t) :
  UpdateHandler.middleware h0 = [] ->
  Forall (fun st => proceeds_once st = true) pre ->
  (proceeded = true -> Forall (fun st => proceeds_once st = true) post) ->
  let B := map Log l1
           ++ (if proceeded then Proceed :: map Log l2 else [])
           ++ Raise e :: tail in
  let this := register (pre ++ B :: post) h0 in
  let r := UpdateHandler.processUpdate this update in
  fst r = Throw e /\
  trace (snd r) =
    flat_map before pre ++ map StageLog l1
    ++ (if proceeded
        then flat_map before post
             ++ route_events this (fresh update) declaration_order
             ++ flat_map after (rev post) ++ map StageLog l2
        else [])
    ++ [ConsoleError "Error processing update:" e].
Proof.
  intros H0 Hpre Hpost B this r. subst r.
  destruct (register_fields (pre ++ B :: post) h0) as (Hm & _ & _).
  rewrite H0 in Hm. simpl in Hm. fold this in Hm.
  rewrite map_app in Hm. cbn [map] in Hm.
  rewrite (processUpdate_prefix this pre _ update Hm Hpre).
  cbn [List.length]. rewrite length_map.
  rewrite dispatch_at by (simpl; now rewrite length_map).
  assert (HB : forall next s,
             run_stage B next s =
             run_stage ((if proceeded then Proceed :: map Log l2 else [])
                        ++ Raise e :: tail) next
                       (add_trace (map StageLog l1) s))
    by (intros; apply run_stage_logs_then).
  rewrite HB. clear HB.
  destruct proceeded; cbn [app run_stage].
  - rewrite bind_unfold.
    assert (E : forall (l r : list MiddlewareFunction) x,
               l ++ x :: r = (l ++ [x]) ++ r)
      by (intros; now rewrite <- app_assoc).
    rewrite (E (map run_stage pre) (map run_stage post) (run_stage B)).
    rewrite dispatch_suffix
      by (auto; simpl; rewrite length_app, length_map; simpl; lia).
    rewrite routeUpdate_run. cbn [then_after].
    rewrite run_stage_logs_then. cbn [run_stage].
    split; trace_norm; reflexivity.
  - split; trace_norm; reflexivity.
Qed.

(** A, a failing B and C: the failure reaches the caller, C and the handler
    never run. *)
Lemma middleware_error_propagates_witness :
  let r := UpdateHandler.processUpdate
             (register [Sample.stageA; Sample.stageFail; Sample.stageC]
                       (UpdateHandler.onMessage Sample.h1 Sample.bare))
             (Sample.message_update "hi") in
  fst r = Throw "stage failed" /\
  trace (snd r) =
    [StageLog "A before"; StageLog "B before";
     ConsoleError "Error processing update:" "stage failed"].
Proof.
  apply (middleware_error_propagates
           (UpdateHandler.onMessage Sample.h1 Sample.bare)
           [Sample.stageA] [Sample.stageC] ["B before"] [] false
           "stage failed" [Proceed] (Sample.message_update "hi")).
  - reflexivity.
  - repeat constructor.
  - discriminate.
Defined.

(** ** The routing claims *)

(** C2 (handler failures are isolated).  Handlers h1, h2, h3 registered in
    that order for a kind [k] that the update matches, h2 throwing [e],
    behind stages that proceed once: [processUpdate] returns normally; the
    registries of the matching kinds declared before [k] run, then h1, then
    h2 followed by the console line for [e], then h3, each once, then the
    registries of the matching kinds declared after [k]. *)
Theorem handler_failure_is_isolated (base : UpdateHandler.t)
        (stages : list Stage) (update : Update.t) (k : Kind.t)
        (h1 h2 h3 : Handler) (e : Error) (ks1 ks2 : list Kind.t) :
  UpdateHandler.middleware base = map run_stage stages ->
  Forall (fun st => proceeds_once st = true) stages ->
  UpdateHandler.handlers base k = [] ->
  hthrows h2 = Some e ->
  let this := UpdateHandler.on k h3
                (UpdateHandler.on k h2 (UpdateHandler.on k h1 base)) in
  dispatched this update k = true ->
  declaration_order = ks1 ++ k :: ks2 ->
  let c := fresh update in
  let r := UpdateHandler.processUpdate this update in
  fst r = Ok tt /\
  trace (snd r) =
    flat_map before stages
    ++ (route_events this c ks1
        ++ (handler_events c h1
            ++ [HandlerCall (hname h2) c; ConsoleError "Error in handler:" e]
            ++ handler_events c h3)
        ++ route_events this c ks2)
    ++ flat_map after (rev stages).
Proof.
  intros Hm Hall Hk He this Hd Hord c r. subst r.
  rewrite (processUpdate_proceeding this stages update) by assumption.
  split; [reflexivity|]. cbn [snd advance trace UpdateHandler.initial app].
  rewrite Hord, route_events_app, route_events_cons.
  unfold kind_events. fold c. cbn [UpdateContext.update c fresh ctx UpdateHandler.initial]. rewrite Hd.
  assert (Hreg : UpdateHandler.handlers this k = [h1; h2; h3]).
  { unfold this; simpl. rewrite Kind_eqb_refl, Hk. reflexivity. }
  rewrite Hreg. unfold registry_events. cbn [flat_map].
  unfold handler_events at 2. rewrite He.
  rewrite app_nil_r, <- !app_assoc. reflexivity.
Qed.

(** A message that carries a callback query: h1, h2 (logged), h3, then the
    callback handler. *)
Lemma handler_failure_is_isolated_witness :
  let u := Sample.message_and_callback in
  let r := UpdateHandler.processUpdate
             (UpdateHandler.onMessage Sample.h3
                (UpdateHandler.onMessage Sample.h2
                   (UpdateHandler.onMessage Sample.h1
                      (UpdateHandler.onCallbackQuery Sample.onCallback
                         Sample.bare)))) u in
  fst r = Ok tt /\
  trace (snd r) =
    [HandlerCall "h1" (fresh u); HandlerCall "h2" (fresh u);
     ConsoleError "Error in handler:" "boom"; HandlerCall "h3" (fresh u);
     HandlerCall "callback" (fresh u)].
Proof.
  apply (handler_failure_is_isolated
           (UpdateHandler.onCallbackQuery Sample.onCallback Sample.bare)
           [] Sample.message_and_callback Kind.message
           Sample.h1 Sample.h2 Sample.h3 "boom" [] (tl declaration_order));
    try reflexivity.
  constructor.
Defined.

(** C4 (independent kind checks).  [routeUpdate] returns normally, and
    appends, for every kind in declaration order whose field is present
    and whose governing toggle (if it has one) is enabled, the events of
    that kind's full registry; when no kind is dispatched it changes
    nothing. *)
Theorem routing_checks_every_kind (this : UpdateHandler.t) (s : State) :
  let u := UpdateContext.update (ctx s) in
  UpdateHandler.routeUpdate this s =
    (Ok tt,
     add_trace
       (flat_map (fun k => if dispatched this u k
                           then registry_events (ctx s)
                                  (UpdateHandler.handlers this k)
                           else [])
                 declaration_order) s)
  /\ ((forall k, dispatched this u k = false) ->
      UpdateHandler.routeUpdate this s = (Ok tt, s)).
Proof.
  intros u. rewrite routeUpdate_run. split; [reflexivity|].
  intros Hnone. rewrite route_events_none by assumption.
  now rewrite add_trace_nil.
Qed.

(** A callback query with every toggle off: nothing runs, no error. *)
Lemma routing_checks_every_kind_witness :
  UpdateHandler.routeUpdate Sample.all_off
    (UpdateHandler.initial Sample.callback_update)
  = (Ok tt, UpdateHandler.initial Sample.callback_update).
Proof.
  apply (proj2 (routing_checks_every_kind Sample.all_off _)).
  intros k. destruct k; reflexivity.
Defined.

(** C9 (messages have no toggle).  Whatever the configuration, an update
    whose [message] field is present has the whole message registry run
    first in the terminal action; and with every toggle off, an update
    without a [message] field dispatches nothing, so every other kind has a
    toggle that suppresses it. *)
Theorem message_dispatch_has_no_toggle (this : UpdateHandler.t)
        (stages : list Stage) (update : Update.t) (m : Message.t) :
  UpdateHandler.middleware this = map run_stage stages ->
  Forall (fun st => proceeds_once st = true) stages ->
  Update.message update = Some m ->
  let c := fresh update in
  let r := UpdateHandler.processUpdate this update in
  (fst r = Ok tt /\
   trace (snd r) =
     flat_map before stages
     ++ (registry_events c (UpdateHandler.messageHandlers this)
         ++ route_events this c (tl declaration_order))
     ++ flat_map after (rev stages))
  /\ (forall s,
        (forall t, UpdateHandler.config this t = false) ->
        Update.message (UpdateContext.update (ctx s)) = None ->
        UpdateHandler.routeUpdate this s = (Ok tt, s)).
Proof.
  intros Hm Hall Hmsg c r. subst r. split.
  - rewrite (processUpdate_proceeding this stages update) by assumption.
    split; [reflexivity|]. cbn [snd advance trace UpdateHandler.initial app].
    change declaration_order with (Kind.message :: tl declaration_order) at 1.
    rewrite route_events_cons. unfold kind_events at 1, dispatched.
    cbn [fresh ctx UpdateHandler.initial UpdateContext.update field_present
         governing_toggle].
    rewrite Hmsg. reflexivity.
  - intros s Hoff Hnone. rewrite routeUpdate_run.
    rewrite route_events_none; [now rewrite add_trace_nil|].
    intros k. unfold dispatched.
    destruct k; cbn [field_present governing_toggle];
      rewrite ?Hoff, ?Hnone, ?andb_false_r; reflexivity.
Qed.

(** Every toggle off, a message that carries a callback query: the message
    handler runs, the callback handler does not. *)
Lemma message_dispatch_has_no_toggle_witness :
  let u := Sample.message_and_callback in
  let r := UpdateHandler.processUpdate Sample.all_off u in
  fst r = Ok tt /\ trace (snd r) = [HandlerCall "h1" (fresh u)].
Proof.
  apply (proj1 (message_dispatch_has_no_toggle Sample.all_off []
                  Sample.message_and_callback (Sample.text_message "hi")
                  eq_refl (Forall_nil _) eq_refl)).
Defined.

(** ** Strings *)

Lemma split_not_nil s c : JS.split s c <> [].
Proof.
  destruct s as [|a s]; simpl; [discriminate|].
  destruct (Ascii.eqb a c); [discriminate|].
  destruct (JS.split s c); discriminate.
Qed.

Lemma join_cons sep x y ys :
  JS.join sep (x :: y :: ys) = (x ++ sep ++ JS.join sep (y :: ys))%string.
Proof. reflexivity. Qed.

(** Joining the pieces with the separator gives the string back. *)
Lemma join_split s c : JS.join (sep_string c) (JS.split s c) = s.
Proof.
  induction s as [|a s IH]; [reflexivity|].
  simpl. pose proof (split_not_nil s c) as Hnil.
  destruct (JS.split s c) as [|t ts]; [contradiction|]. clear Hnil.
  destruct (Ascii.eqb_spec a c) as [->|Hne].
  - rewrite join_cons. cbn [append sep_string]. now rewrite IH.
  - destruct ts as [|t' ts].
    + cbn in *. now rewrite IH.
    + rewrite join_cons in *. cbn [append]. now rewrite IH.
Qed.

(** No piece contains the separator. *)
Lemma split_pieces s c :
  Forall (fun t => contains c t = false) (JS.split s c).
Proof.
  induction s as [|a s IH]; simpl.
  - constructor; [reflexivity|constructor].
  - destruct (Ascii.eqb_spec a c) as [->|Hne].
    + constructor; [reflexivity|assumption].
    + destruct (JS.split s c) as [|t ts]; [repeat constructor; simpl|].
      * destruct (Ascii.eqb_spec a c); [contradiction|reflexivity].
      * inversion IH; subst. constructor; [|assumption].
        simpl. destruct (Ascii.eqb_spec a c); [contradiction|assumption].
Qed.

Lemma split_head_starts s c a :
  JS.startsWith s a = true -> a <> c ->
  exists t ts, JS.split s c = String a t :: ts.
Proof.
  destruct s as [|b s]; simpl; [discriminate|].
  intros Hb Hne. apply Ascii.eqb_eq in Hb. subst b.
  destruct (Ascii.eqb_spec a c); [contradiction|].
  destruct (JS.split s c) as [|t ts]; eauto.
Qed.


(** ** commandParser *)

(** The parser on a text that starts with the marker: the assignments of
    the source, then the continuation. *)
Lemma commandParser_run next s m text :
  (Update.message (UpdateContext.update (ctx s)) = Some m \/
   (Update.message (UpdateContext.update (ctx s)) = None /\
    Update.business_message (UpdateContext.update (ctx s)) = Some m)) ->
  Message.text m = Some text ->
  JS.startsWith text "/" = true ->
  let parts := JS.split text " " in
  let pieces := JS.split (JS.substring1 (hd EmptyString parts)) "@" in
  commandParser next s =
  next (with_ctx (parsed (UpdateContext.update (ctx s))
                         (hd EmptyString pieces) (tl parts)
                         (nth_error pieces 1)) s).
Proof.
  intros Hmsg Htext Hstart parts pieces.
  unfold commandParser. rewrite bind_unfold. cbn [get_ctx].
  assert (Hsel : match Update.message (UpdateContext.update (ctx s)) with
                 | Some m0 => Some m0
                 | None => Update.business_message (UpdateContext.update (ctx s))
                 end = Some m).
  { destruct Hmsg as [-> | [-> ->]]; reflexivity. }
  rewrite Hsel. destruct m as [ch tx]. cbn [Message.text] in Htext. subst tx.
  rewrite Hstart. reflexivity.
Qed.

(** The tokens of a text that starts with the marker: the first token is
    the marker followed by the non-empty list of its pieces. *)
Lemma command_text_shape text :
  JS.startsWith text "/" = true ->
  exists name more arguments,
    JS.split text " " =
      ("/" ++ JS.join "@" (name :: more))%string :: arguments /\
    JS.split (JS.substring1 (hd EmptyString (JS.split text " "))) "@" =
      name :: more.
Proof.
  intros Hstart.
  destruct (split_head_starts text " " "/" Hstart) as (t & ts & Hparts);
    [discriminate|].
  pose proof (split_not_nil t "@") as Hnil.
  destruct (JS.split t "@") as [|name more] eqn:Hpieces; [contradiction|].
  exists name, more, ts. rewrite Hparts. cbn [hd JS.substring1].
  split; [|exact Hpieces].
  rewrite <- Hpieces. change (JS.join "@" (JS.split t "@"))
    with (JS.join (sep_string "@") (JS.split t "@")).
  now rewrite join_split.
Qed.

(** C8 (parsing rule, amended).  For the text of [update.message], or of
    [update.business_message] when there is no message, that starts with
    the marker: the text is the tokens joined by single spaces and no token
    contains a space; the first token is the marker followed by pieces
    joined by [@], none of which contains [@]; the parser stores the first
    piece as [command], the second piece, if any, as [botUsername] and the
    remaining tokens, verbatim, as [args], and calls its continuation once. *)
Theorem commandParser_splits_on_spaces (next : M unit) (s : State)
        (m : Message.t) (text : string) :
  (Update.message (UpdateContext.update (ctx s)) = Some m \/
   (Update.message (UpdateContext.update (ctx s)) = None /\
    Update.business_message (UpdateContext.update (ctx s)) = Some m)) ->
  Message.text m = Some text ->
  JS.startsWith text "/" = true ->
  exists name more arguments,
    let first := ("/" ++ JS.join "@" (name :: more))%string in
    text = JS.join " " (first :: arguments) /\
    Forall (fun t => contains " " t = false) (first :: arguments) /\
    Forall (fun t => contains "@" t = false) (name :: more) /\
    commandParser next s =
    next (with_ctx (parsed (UpdateContext.update (ctx s)) name arguments
                           (hd_error more)) s).
Proof.
  intros Hmsg Htext Hstart.
  destruct (command_text_shape text Hstart)
    as (name & more & arguments & Hparts & Hpieces).
  exists name, more, arguments. cbv zeta. repeat split.
  - rewrite <- Hparts. symmetry. apply (join_split text " ").
  - rewrite <- Hparts. apply split_pieces.
  - rewrite <- Hpieces. apply split_pieces.
  - rewrite (commandParser_run next s m text) by assumption.
    cbv zeta. rewrite Hpieces, Hparts. cbn [hd tl].
    destruct more; reflexivity.
Qed.

(** The text [/cmd@bot a b] of a message. *)
Lemma commandParser_splits_on_spaces_witness :
  exists name more arguments,
    let first := ("/" ++ JS.join "@" (name :: more))%string in
    "/cmd@bot a b" = JS.join " " (first :: arguments) /\
    Forall (fun t => contains " " t = false) (first :: arguments) /\
    Forall (fun t => contains "@" t = false) (name :: more) /\
    commandParser (ret tt)
      (UpdateHandler.initial (Sample.message_update "/cmd@bot a b")) =
    ret tt (with_ctx (parsed (Sample.message_update "/cmd@bot a b")
                             name arguments (hd_error more))
                     (UpdateHandler.initial
                        (Sample.message_update "/cmd@bot a b"))).
Proof.
  apply (commandParser_splits_on_spaces (ret tt)
           (UpdateHandler.initial (Sample.message_update "/cmd@bot a b"))
           (Sample.text_message "/cmd@bot a b") "/cmd@bot a b").
  - left. reflexivity.
  - reflexivity.
  - reflexivity.
Defined.

(** C8, as stated, fails: after a line break following the command name
    the code keeps the break and the next word inside [command] and finds
    no argument, where splitting on whitespace gives the command [say] and
    the argument [hello]. *)
Lemma commandParser_keeps_line_break :
  let text := ("/say" ++ LF ++ "hello")%string in
  let s := snd (commandParser (ret tt)
                  (UpdateHandler.initial (Sample.message_update text))) in
  UpdateContext.command (ctx s) = Some ("say" ++ LF ++ "hello")%string /\
  UpdateContext.args (ctx s) = Some [] /\
  whitespace_parse text = ("say", ["hello"], None).
Proof. repeat split. Qed.

(** ** CommandRouter *)

Lemma reply_run c text s :
  c = ctx s ->
  CommandRouter.reply c text s = (Ok tt, add_trace (reply_events c text) s).
Proof.
  intros ->. unfold CommandRouter.reply, reply_events.
  destruct (Update.message (UpdateContext.update (ctx s))); [reflexivity|].
  unfold ret. now rewrite add_trace_nil.
Qed.

Lemma reply_events_no_message c text :
  Update.message (UpdateContext.update c) = None -> reply_events c text = [].
Proof. unfold reply_events. now intros ->. Qed.

Lemma truthy_string_nonempty cmd :
  cmd <> EmptyString -> truthy_string (Some cmd) = true.
Proof. intros H. destruct cmd; [contradiction|reflexivity]. Qed.

(** The router on the help command. *)
Lemma middleware_help this next s cmd :
  UpdateContext.command (ctx s) = Some cmd ->
  cmd <> EmptyString ->
  cmd = CommandRouter.helpCommand this ->
  CommandRouter.middleware this next s =
  (Ok tt, add_trace (reply_events (ctx s) (CommandRouter.generateHelp this)) s).
Proof.
  intros Hc Hne Hh. unfold CommandRouter.middleware.
  rewrite bind_unfold. cbn [get_ctx]. rewrite Hc.
  rewrite truthy_string_nonempty by assumption. cbn [negb].
  rewrite <- Hh, String.eqb_refl. now apply reply_run.
Qed.

(** The router on a command other than help that the map resolves: the two
    tests of the source on the argument count. *)
Lemma middleware_known this next s cmd config a :
  UpdateContext.command (ctx s) = Some cmd ->
  cmd <> EmptyString ->
  cmd <> CommandRouter.helpCommand this ->
  JS.map_get cmd (CommandRouter.commandMap this) = Some config ->
  UpdateContext.args (ctx s) = Some a ->
  let n := Z.of_nat (List.length a) in
  CommandRouter.middleware this next s =
  if truthy_number (CommandConfig.minArgs config)
     && (n <? number_value (CommandConfig.minArgs config))%Z
  then (Ok tt, add_trace (reply_events (ctx s)
          (CommandRouter.min_text cmd
             (number_value (CommandConfig.minArgs config)))) s)
  else if truthy_number (CommandConfig.maxArgs config)
          && (n >? number_value (CommandConfig.maxArgs config))%Z
  then (Ok tt, add_trace (reply_events (ctx s)
          (CommandRouter.max_text cmd
             (number_value (CommandConfig.maxArgs config)))) s)
  else call (CommandConfig.handler config) s.
Proof.
  intros Hc Hne Hh Hget Ha n. unfold CommandRouter.middleware.
  rewrite bind_unfold. cbn [get_ctx]. rewrite Hc.
  rewrite truthy_string_nonempty by assumption. cbn [negb].
  destruct (String.eqb_spec cmd (CommandRouter.helpCommand this));
    [contradiction|].
  rewrite Hget. unfold CommandRouter.args_length. rewrite Ha.
  cbn [present negb orb andb]. fold n.
  rewrite andb_true_r.
  destruct (truthy_number (CommandConfig.minArgs config)
            && (n <? number_value (CommandConfig.minArgs config))%Z);
    [now apply reply_run|].
  destruct (truthy_number (CommandConfig.maxArgs config)
            && (n >? number_value (CommandConfig.maxArgs config))%Z);
    [now apply reply_run|reflexivity].
Qed.

(** The router on a command that the map does not resolve, without a
    fallback handler. *)
Lemma middleware_unknown this next s cmd :
  UpdateContext.command (ctx s) = Some cmd ->
  cmd <> EmptyString ->
  cmd <> CommandRouter.helpCommand this ->
  JS.map_get cmd (CommandRouter.commandMap this) = None ->
  CommandRouter.unknownCommandHandler this = None ->
  CommandRouter.middleware this next s =
  (Ok tt, add_trace (reply_events (ctx s)
            (CommandRouter.unknown_text cmd (CommandRouter.helpCommand this))) s).
Proof.
  intros Hc Hne Hh Hget Hu. unfold CommandRouter.middleware.
  rewrite bind_unfold. cbn [get_ctx]. rewrite Hc.
  rewrite truthy_string_nonempty by assumption. cbn [negb].
  destruct (String.eqb_spec cmd (CommandRouter.helpCommand this));
    [contradiction|].
  rewrite Hget, Hu. now apply reply_run.
Qed.

(** The tests of the source against the declared bounds. *)
Section Arity.
Variables (config : CommandConfig.t) (n : Z).

Lemma below_min m :
  CommandConfig.minArgs config = Some m -> (n < m)%Z -> (0 <= n)%Z ->
  truthy_number (CommandConfig.minArgs config)
  && (n <? number_value (CommandConfig.minArgs config))%Z = true.
Proof.
  intros -> Hlt Hn. cbn. apply andb_true_iff. split.
  - apply negb_true_iff, Z.eqb_neq. lia.
  - now apply Z.ltb_lt.
Qed.

Lemma not_below_min :
  (forall m, CommandConfig.minArgs config = Some m -> (m <= n)%Z) ->
  truthy_number (CommandConfig.minArgs config)
  && (n <? number_value (CommandConfig.minArgs config))%Z = false.
Proof.
  intros H. destruct (CommandConfig.minArgs config) as [m|]; [|reflexivity].
  cbn. apply andb_false_iff. right. apply Z.ltb_ge. now apply H.
Qed.

Lemma above_max mx :
  CommandConfig.maxArgs config = Some mx -> mx <> 0%Z -> (n > mx)%Z ->
  truthy_number (CommandConfig.maxArgs config)
  && (n >? number_value (CommandConfig.maxArgs config))%Z = true.
Proof.
  intros -> Hnz Hgt. cbn. apply andb_true_iff. split.
  - now apply negb_true_iff, Z.eqb_neq.
  - apply Z.gtb_lt. lia.
Qed.

Lemma not_above_max :
  (forall mx, CommandConfig.maxArgs config = Some mx -> (n <= mx)%Z) ->
  truthy_number (CommandConfig.maxArgs config)
  && (n >? number_value (CommandConfig.maxArgs config))%Z = false.
Proof.
  intros H. destruct (CommandConfig.maxArgs config) as [mx|]; [|reflexivity].
  cbn. apply andb_false_iff. right.
  rewrite Z.gtb_ltb. apply Z.ltb_ge. now apply H.
Qed.
End Arity.

(** C6 (command arity, amended).  For a parsed command other than the help
    command that the map resolves to a definition, with [n] parsed
    arguments: when a minimum is declared and [n] is below it, the router
    stops without calling the handler or its continuation, and sends the
    usage message naming the command and the minimum if the update's
    [message] field is present, nothing otherwise; when the minimum holds, a
    non-zero maximum is declared and [n] exceeds it, the same with the
    usage message naming the maximum; when [n] is within every declared
    bound, the handler is called once with the context that holds the
    parsed command, arguments and bot username, and the router stops.  The
    bound named in a usage message is a safe integer, printed in decimal. *)
Theorem command_arity_enforcement (this : CommandRouter.t) (next : M unit)
        (s : State) (cmd : string) (config : CommandConfig.t)
        (a : list string) :
  UpdateContext.command (ctx s) = Some cmd ->
  cmd <> EmptyString ->
  cmd <> CommandRouter.helpCommand this ->
  JS.map_get cmd (CommandRouter.commandMap this) = Some config ->
  UpdateContext.args (ctx s) = Some a ->
  let n := Z.of_nat (List.length a) in
  let r := CommandRouter.middleware this next s in
  let within_min :=
    forall m, CommandConfig.minArgs config = Some m -> (m <= n)%Z in
  (forall m, CommandConfig.minArgs config = Some m ->
     JS.safe_integer m = true -> (n < m)%Z ->
     r = (Ok tt, add_trace (reply_events (ctx s)
                              (CommandRouter.min_text cmd m)) s))
  /\ (forall mx, CommandConfig.maxArgs config = Some mx ->
      JS.safe_integer mx = true -> mx <> 0%Z ->
      within_min -> (n > mx)%Z ->
      r = (Ok tt, add_trace (reply_events (ctx s)
                               (CommandRouter.max_text cmd mx)) s))
  /\ (within_min ->
      (forall mx, CommandConfig.maxArgs config = Some mx -> (n <= mx)%Z) ->
      r = (match hthrows (CommandConfig.handler config) with
           | Some e => Throw e
           | None => Ok tt
           end,
           add_trace [HandlerCall (hname (CommandConfig.handler config))
                                  (ctx s)] s)).
Proof.
  intros Hc Hne Hh Hget Ha n r within_min. subst r.
  rewrite (middleware_known this next s cmd config a) by assumption.
  fold n. repeat split.
  - intros m Hm _ Hlt. rewrite (below_min config n m) by (auto; lia).
    now rewrite Hm.
  - intros mx Hmx _ Hnz Hmin Hgt.
    rewrite not_below_min by assumption.
    rewrite (above_max config n mx) by assumption. now rewrite Hmx.
  - intros Hmin Hmax.
    rewrite not_below_min, not_above_max by assumption.
    apply call_run.
Qed.

(** [/cmd a] against a minimum of two: the usage reply, no handler call.
    [/cmd a b]: the handler is called with both arguments. *)
Lemma command_arity_enforcement_witness :
  let short := Sample.after_parser (Sample.message_update "/cmd a") "cmd" ["a"] in
  let exact := Sample.after_parser (Sample.message_update "/cmd a b")
                                   "cmd" ["a"; "b"] in
  let next := emit (StageLog "proceed") in
  CommandRouter.middleware Sample.router next short =
    (Ok tt,
     add_trace [SendMessage 42 "Command /cmd requires at least 2 arguments."]
               short)
  /\ CommandRouter.middleware Sample.router next exact =
     (Ok tt, add_trace [HandlerCall "cmd" (ctx exact)] exact).
Proof.
  split.
  - apply (proj1 (command_arity_enforcement Sample.router
                    (emit (StageLog "proceed"))
                    (Sample.after_parser (Sample.message_update "/cmd a")
                                         "cmd" ["a"])
                    "cmd" Sample.cmd ["a"]
                    eq_refl ltac:(discriminate) ltac:(discriminate)
                    eq_refl eq_refl) 2%Z eq_refl eq_refl eq_refl).
  - apply (proj2 (proj2 (command_arity_enforcement Sample.router
                    (emit (StageLog "proceed"))
                    (Sample.after_parser (Sample.message_update "/cmd a b")
                                         "cmd" ["a"; "b"])
                    "cmd" Sample.cmd ["a"; "b"]
                    eq_refl ltac:(discriminate) ltac:(discriminate)
                    eq_refl eq_refl))).
    + intros m Hm. injection Hm as <-. cbn. lia.
    + intros mx Hmx. injection Hmx as <-. cbn. lia.
Defined.

(** C6, as stated, fails: a usage violation in a business message.  The
    command is recognised, one argument is below the declared minimum of
    two, and nothing is sent. *)
Lemma arity_violation_without_reply :
  let r := UpdateHandler.processUpdate Sample.bot
             (Sample.business_update "/cmd a") in
  fst r = Ok tt /\
  UpdateContext.command (ctx (snd r)) = Some "cmd" /\
  UpdateContext.args (ctx (snd r)) = Some ["a"] /\
  JS.map_get "cmd" (CommandRouter.commandMap Sample.router) = Some Sample.cmd /\
  CommandConfig.minArgs Sample.cmd = Some 2%Z /\
  trace (snd r) = [].
Proof. repeat split. Qed.

(** *** Registration without aliases *)

Lemma map_get_absent (filed : list CommandConfig.t) k :
  ~ In k (map registration_key filed) ->
  JS.map_get k (map (fun c => (registration_key c, c)) filed) = None.
Proof.
  induction filed as [|c filed IH]; intros Hk; [reflexivity|].
  simpl in *. destruct (String.eqb_spec (registration_key c) k) as [E|E].
  - exfalso. auto.
  - apply IH. auto.
Qed.








(** C10 (replies need a message).  For an update without a [message] field
    whose [business_message] text starts with the marker, the parser
    recognises the command, the one the text is parsed into (the text is
    the tokens joined by single spaces, no token contains a space and no
    piece of the first token contains [@]), and when that command is
    non-empty the router,
    run behind the parser, leaves the trace empty on the help branch, on
    both usage-violation branches and on the default unknown-command branch:
    nothing is sent, no handler runs and the continuation is not called.
    When the command resolves and its argument count is within the declared
    bounds, the command's handler is called with the parsed context. *)
Theorem replies_require_message (R : CommandRouter.t) (next : M unit)
        (update : Update.t) (bm : Message.t) (text : string) :
  Update.message update = None ->
  Update.business_message update = Some bm ->
  Message.text bm = Some text ->
  JS.startsWith text "/" = true ->
  exists cmd more a,
    let first := ("/" ++ JS.join "@" (cmd :: more))%string in
    text = JS.join " " (first :: a) /\
    Forall (fun t => contains " " t = false) (first :: a) /\
    Forall (fun t => contains "@" t = false) (cmd :: more) /\
    let s1 := with_ctx (parsed update cmd a (hd_error more))
                       (UpdateHandler.initial update) in
    let r := commandParser (CommandRouter.middleware R next)
                           (UpdateHandler.initial update) in
    let n := Z.of_nat (List.length a) in
    cmd <> EmptyString ->
    (cmd = CommandRouter.helpCommand R -> r = (Ok tt, s1))
    /\ (cmd <> CommandRouter.helpCommand R ->
        forall config,
          JS.map_get cmd (CommandRouter.commandMap R) = Some config ->
          let within_min :=
            forall m, CommandConfig.minArgs config = Some m -> (m <= n)%Z in
          (forall m, CommandConfig.minArgs config = Some m -> (n < m)%Z ->
             r = (Ok tt, s1))
          /\ (forall mx, CommandConfig.maxArgs config = Some mx ->
              mx <> 0%Z -> within_min -> (n > mx)%Z -> r = (Ok tt, s1))
          /\ (within_min ->
              (forall mx, CommandConfig.maxArgs config = Some mx ->
                          (n <= mx)%Z) ->
              r = (match hthrows (CommandConfig.handler config) with
                   | Some e => Throw e
                   | None => Ok tt
                   end,
                   add_trace [HandlerCall
                                (hname (CommandConfig.handler config))
                                (ctx s1)] s1)))
    /\ (cmd <> CommandRouter.helpCommand R ->
        JS.map_get cmd (CommandRouter.commandMap R) = None ->
        CommandRouter.unknownCommandHandler R = None ->
        r = (Ok tt, s1)).
Proof.
  intros Hmsg Hbm Htext Hstart.
  destruct (command_text_shape text Hstart)
    as (cmd & more & a & Hparts & Hpieces).
  exists cmd, more, a. cbv zeta. split; [|split; [|split]].
  { rewrite <- Hparts. symmetry. apply (join_split text " "). }
  { rewrite <- Hparts. apply split_pieces. }
  { rewrite <- Hpieces. apply split_pieces. }
  set (s1 := with_ctx (parsed update cmd a (hd_error more))
                      (UpdateHandler.initial update)).
  set (n := Z.of_nat (List.length a)).
  intros Hne.
  rewrite (commandParser_run _ (UpdateHandler.initial update) bm text)
    by auto.
  cbv zeta. rewrite Hpieces, Hparts. cbn [hd tl].
  replace (nth_error (cmd :: more) 1) with (hd_error more)
    by (destruct more; reflexivity).
  change (with_ctx _ (UpdateHandler.initial update)) with s1.
  assert (Hquiet : forall t, add_trace (reply_events (ctx s1) t) s1 = s1).
  { intros t. rewrite reply_events_no_message by exact Hmsg.
    apply add_trace_nil. }
  split; [|split].
  - intros Hh. rewrite (middleware_help R next s1 cmd) by auto.
    now rewrite Hquiet.
  - intros Hh config Hget.
    rewrite (middleware_known R next s1 cmd config a) by auto.
    fold n. repeat split.
    + intros m Hm Hlt. rewrite (below_min config n m) by (auto; lia).
      now rewrite Hquiet.
    + intros mx Hmx Hnz Hmin Hgt.
      rewrite not_below_min by assumption.
      rewrite (above_max config n mx) by assumption.
      now rewrite Hquiet.
    + intros Hmin Hmax.
      rewrite not_below_min, not_above_max by assumption.
      apply call_run.
  - intros Hh Hget Hu.
    rewrite (middleware_unknown R next s1 cmd) by auto.
    now rewrite Hquiet.
Qed.

(** [/cmd a] in a business message. *)
Lemma replies_require_message_witness :
  exists cmd more a,
    let first := ("/" ++ JS.join "@" (cmd :: more))%string in
    "/cmd a" = JS.join " " (first :: a) /\
    Forall (fun t => contains " " t = false) (first :: a) /\
    Forall (fun t => contains "@" t = false) (cmd :: more) /\
    let update := Sample.business_update "/cmd a" in
    let s1 := with_ctx (parsed update cmd a (hd_error more))
                       (UpdateHandler.initial update) in
    let r := commandParser (CommandRouter.middleware Sample.router (ret tt))
                           (UpdateHandler.initial update) in
    let n := Z.of_nat (List.length a) in
    cmd <> EmptyString ->
    (cmd = CommandRouter.helpCommand Sample.router -> r = (Ok tt, s1))
    /\ (cmd <> CommandRouter.helpCommand Sample.router ->
        forall config,
          JS.map_get cmd (CommandRouter.commandMap Sample.router) = Some config ->
          let within_min :=
            forall m, CommandConfig.minArgs config = Some m -> (m <= n)%Z in
          (forall m, CommandConfig.minArgs config = Some m -> (n < m)%Z ->
             r = (Ok tt, s1))
          /\ (forall mx, CommandConfig.maxArgs config = Some mx ->
              mx <> 0%Z -> within_min -> (n > mx)%Z -> r = (Ok tt, s1))
          /\ (within_min ->
              (forall mx, CommandConfig.maxArgs config = Some mx ->
                          (n <= mx)%Z) ->
              r = (match hthrows (CommandConfig.handler config) with
                   | Some e => Throw e
                   | None => Ok tt
                   end,
                   add_trace [HandlerCall
                                (hname (CommandConfig.handler config))
                                (ctx s1)] s1)))
    /\ (cmd <> CommandRouter.helpCommand Sample.router ->
        JS.map_get cmd (CommandRouter.commandMap Sample.router) = None ->
        CommandRouter.unknownCommandHandler Sample.router = None ->
        r = (Ok tt, s1)).
Proof.
  apply (replies_require_message Sample.router (ret tt)
           (Sample.business_update "/cmd a") (Sample.text_message "/cmd a")
           "/cmd a"); reflexivity.
Defined.

(** ** Two behaviours next to the amended statements *)

(** A declared maximum of zero is never enforced: the test on [maxArgs] is
    a truthiness test. *)
Example maxArgs_zero_is_not_enforced :
  let r := UpdateHandler.processUpdate
             (UpdateHandler.use
                (CommandRouter.middleware
                   (CommandRouter.command Sample.ping
                      CommandRouter.createCommandRouter))
                (UpdateHandler.use commandParser Sample.bare))
             (Sample.message_update "/ping now") in
  fst r = Ok tt /\ trace (snd r) = [HandlerCall "ping" (ctx (snd r))].
Proof. repeat split. Qed.

(** A command with an alias is an entry of the map under each of its keys,
    and is listed once per key. *)
Example aliased_command_is_listed_twice :
  CommandRouter.generateHelp
    (CommandRouter.command Sample.ping CommandRouter.createCommandRouter)
  = JS.join LF ["/ping - Ping"; "/ping - Ping"].
Proof. reflexivity. Qed.

(** * Further properties of the dispatch code *)

(** ** Registration and configuration *)

Lemma Kind_eqb_eq a b : Kind.eqb a b = true <-> a = b.
Proof.
  split.
  - destruct a, b; simpl; intros H; try reflexivity; discriminate.
  - intros ->. apply Kind_eqb_refl.
Qed.

Lemma on_fields k h this :
  UpdateHandler.middleware (UpdateHandler.on k h this) =
    UpdateHandler.middleware this /\
  UpdateHandler.config (UpdateHandler.on k h this) = UpdateHandler.config this /\
  forall k', UpdateHandler.handlers (UpdateHandler.on k h this) k' =
             UpdateHandler.handlers this k'
             ++ (if Kind.eqb k k' then [h] else []).
Proof.
  repeat split. intros k'. cbn.
  destruct (Kind.eqb k k'); [reflexivity|now rewrite app_nil_r].
Qed.

(** X1.  The [on...] methods append: after any sequence of registrations
    the list of a kind is its previous list followed by the handlers
    registered for that kind, in registration order and with repetitions;
    the middleware and the configuration are untouched. *)
Theorem registration_appends_per_kind (regs : list (Kind.t * Handler))
        (this : UpdateHandler.t) :
  UpdateHandler.middleware (register_handlers regs this) =
    UpdateHandler.middleware this /\
  UpdateHandler.config (register_handlers regs this) =
    UpdateHandler.config this /\
  forall k,
    UpdateHandler.handlers (register_handlers regs this) k =
    UpdateHandler.handlers this k
    ++ map snd (filter (fun r => Kind.eqb (fst r) k) regs).
Proof.
  revert this. induction regs as [|[k0 h] regs IH]; intros this.
  - repeat split. intros k. cbn. now rewrite app_nil_r.
  - destruct (IH (UpdateHandler.on k0 h this)) as (Hm & Hc & Hh).
    destruct (on_fields k0 h this) as (Hm0 & Hc0 & Hh0).
    unfold register_handlers in *. cbn [fold_left fst snd].
    rewrite Hm, Hc, Hm0, Hc0. repeat split.
    intros k. rewrite Hh, Hh0. cbn [filter fst].
    destruct (Kind.eqb k0 k); cbn [map snd app];
      now rewrite <- app_assoc.
Qed.

(** The toggle of a kind in the configuration object given to the
    constructor: enabled unless it is set to [false]. *)
Lemma new_config cfg t :
  UpdateHandler.config (UpdateHandler.new cfg) t =
  match cfg t with Absent | Given (Some true) => true | _ => false end.
Proof. cbn. now destruct (cfg t) as [|[[|]|]]. Qed.

Lemma registration_fields_of_new cfg regs :
  (forall t, UpdateHandler.config (register_handlers regs (UpdateHandler.new cfg)) t =
             match cfg t with
             | Absent | Given (Some true) => true
             | _ => false
             end) /\
  (forall k, UpdateHandler.handlers
               (register_handlers regs (UpdateHandler.new cfg)) k =
             map snd (filter (fun r => Kind.eqb (fst r) k) regs)).
Proof.
  assert (G : forall regs this,
             UpdateHandler.config (register_handlers regs this) =
               UpdateHandler.config this /\
             forall k, UpdateHandler.handlers (register_handlers regs this) k =
                       UpdateHandler.handlers this k
                       ++ map snd (filter (fun r => Kind.eqb (fst r) k) regs)).
  { clear. induction regs as [|[k0 h] regs IH]; intros this.
    - split; [reflexivity|]. intros k. cbn. now rewrite app_nil_r.
    - destruct (IH (UpdateHandler.on k0 h this)) as (Hc & Hh).
      destruct (on_fields k0 h this) as (_ & Hc0 & Hh0).
      unfold register_handlers in *. cbn [fold_left fst snd].
      rewrite Hc, Hc0. split; [reflexivity|].
      intros k. rewrite Hh, Hh0. cbn [filter fst].
      destruct (Kind.eqb k0 k); cbn [map snd app];
        now rewrite <- app_assoc. }
  destruct (G regs (UpdateHandler.new cfg)) as (Hc & Hh). split.
  - intros t. rewrite Hc. apply new_config.
  - intros k. now rewrite Hh.
Qed.

(** X2.  An UpdateHandler built by the constructor and any registrations
    dispatches a kind exactly when its field is present and the
    configuration object either lacks the governing toggle or gives it as
    [true]: a toggle given as [false] or as [undefined] disables its
    kinds, and [message] has no toggle. *)
Theorem toggles_default_to_enabled (cfg : UpdateHandlerConfig)
        (regs : list (Kind.t * Handler)) (s : State) :
  let this := register_handlers regs (UpdateHandler.new cfg) in
  let u := UpdateContext.update (ctx s) in
  UpdateHandler.routeUpdate this s =
  (Ok tt,
   add_trace
     (flat_map
        (fun k =>
           if field_present u k
              && match governing_toggle k with
                 | Some t => match cfg t with
                             | Absent | Given (Some true) => true
                             | _ => false
                             end
                 | None => true
                 end
           then registry_events (ctx s)
                  (map snd (filter (fun r => Kind.eqb (fst r) k) regs))
           else [])
        declaration_order) s).
Proof.
  intros this u. rewrite routeUpdate_run.
  destruct (registration_fields_of_new cfg regs) as (Hc & Hh).
  fold this in Hc, Hh.
  unfold route_events, kind_events, dispatched. fold u.
  do 2 f_equal. apply flat_map_ext. intros k.
  rewrite Hh. destruct (governing_toggle k) as [t|]; [rewrite Hc|]; reflexivity.
Qed.

(** ** A continuation called twice *)

Lemma leading_logs_map_Log l : leading_logs (map Log l) = map StageLog l.
Proof. induction l; simpl; congruence. Qed.

Lemma forallb_is_log_map l : forallb is_log (map Log l) = true.
Proof. induction l; simpl; auto. Qed.

(** X3.  A stage that calls its continuation twice, in front of stages
    that proceed once: the first call runs the later stages and the
    terminal action; the second call finds the shared index past the last
    stage and runs the terminal action alone, so the handlers run a second
    time and the later stages do not. *)
Theorem second_proceed_runs_terminal_only (h0 : UpdateHandler.t)
        (post : list Stage) (l1 l2 l3 : list string) (update : Update.t) :
  UpdateHandler.middleware h0 = [] ->
  Forall (fun st => proceeds_once st = true) post ->
  let A := map Log l1 ++ Proceed :: map Log l2 ++ Proceed :: map Log l3 in
  let this := register (A :: post) h0 in
  let T := route_events this (fresh update) declaration_order in
  let r := UpdateHandler.processUpdate this update in
  fst r = Ok tt /\
  trace (snd r) =
    map StageLog l1
    ++ (flat_map before post ++ T ++ flat_map after (rev post))
    ++ map StageLog l2 ++ T ++ map StageLog l3.
Proof.
  intros H0 Hpost A this T r. subst r.
  destruct (register_fields (A :: post) h0) as (Hm & _ & _).
  rewrite H0 in Hm. cbn [app map] in Hm. fold this in Hm.
  rewrite (processUpdate_prefix this [] _ update Hm (Forall_nil _)).
  cbn [map app List.length flat_map rev]. rewrite length_map.
  pose proof (dispatch_at [] (run_stage A) (map run_stage post)) as D.
  cbn [app List.length] in D. rewrite D by reflexivity. clear D.
  assert (HA : forall next s,
             run_stage A next s =
             (next ;; run_stage (map Log l2 ++ Proceed :: map Log l3) next)
               (add_trace (map StageLog l1) s))
    by (intros; unfold A; now rewrite run_stage_logs_then).
  rewrite HA. clear HA. rewrite bind_unfold.
  change (run_stage A :: map run_stage post)
    with ([run_stage A] ++ map run_stage post).
  rewrite dispatch_suffix by (auto; reflexivity).
  rewrite routeUpdate_run. cbn [then_after].
  rewrite run_stage_logs_then. cbn [run_stage]. rewrite bind_unfold.
  rewrite dispatch_past_end
    by (cbn; rewrite length_map; lia).
  rewrite routeUpdate_run.
  rewrite run_stage_logs by apply forallb_is_log_map.
  rewrite leading_logs_map_Log.
  split; trace_norm; reflexivity.
Qed.

(** A stage that proceeds twice in front of stage C: C runs once, the
    handler twice. *)
Lemma second_proceed_runs_terminal_only_witness :
  let u := Sample.message_update "hi" in
  let r := UpdateHandler.processUpdate
             (register [[Log "in"; Proceed; Log "between"; Proceed; Log "out"];
                        Sample.stageC]
                       (UpdateHandler.onMessage Sample.h1 Sample.bare)) u in
  fst r = Ok tt /\
  trace (snd r) =
    [StageLog "in"; StageLog "C before"; HandlerCall "h1" (fresh u);
     StageLog "C after"; StageLog "between"; HandlerCall "h1" (fresh u);
     StageLog "out"].
Proof.
  apply (second_proceed_runs_terminal_only
           (UpdateHandler.onMessage Sample.h1 Sample.bare)
           [Sample.stageC] ["in"] ["between"] ["out"]
           (Sample.message_update "hi")).
  - reflexivity.
  - repeat constructor.
Defined.

(** ** getUpdateType and logger *)

Lemma kind_name_known k : kind_name k <> "unknown".
Proof. destruct k; discriminate. Qed.

(** X4.  [getUpdateType] names the first kind, in the order in which
    [routeUpdate] tests them, whose field is present, whatever other
    fields are present too; it answers [unknown] exactly when no kind
    field is present. *)
Theorem getUpdateType_names_first_present_kind (u : Update.t) :
  getUpdateType u =
    match find (field_present u) declaration_order with
    | Some k => kind_name k
    | None => "unknown"
    end
  /\ (getUpdateType u = "unknown" <-> forall k, field_present u k = false).
Proof.
  assert (E : getUpdateType u =
              match find (field_present u) declaration_order with
              | Some k => kind_name k
              | None => "unknown"
              end).
  { unfold getUpdateType, declaration_order. cbn [find field_present].
    repeat match goal with
           | |- context [present ?o] => destruct (present o); [reflexivity|]
           end.
    reflexivity. }
  split; [exact E|]. rewrite E. split.
  - destruct (find (field_present u) declaration_order) as [k|] eqn:F.
    + intros H. now apply kind_name_known in H.
    + intros _ k. apply (find_none _ _ F). destruct k; cbn; tauto.
  - intros Hnone.
    destruct (find (field_present u) declaration_order) as [k|] eqn:F;
      [|reflexivity].
    apply find_some in F. destruct F as (_ & F). now rewrite Hnone in F.
Qed.

(** X5.  An update that [getUpdateType] calls [unknown] is a no-op for the
    router, whatever is registered and configured. *)
Theorem unknown_update_runs_nothing (this : UpdateHandler.t) (s : State) :
  getUpdateType (UpdateContext.update (ctx s)) = "unknown" ->
  UpdateHandler.routeUpdate this s = (Ok tt, s).
Proof.
  intros H. rewrite routeUpdate_run, route_events_none.
  - now rewrite add_trace_nil.
  - intros k. unfold dispatched.
    assert (Hk : field_present (UpdateContext.update (ctx s)) k = false).
    { revert H. unfold getUpdateType.
      repeat match goal with
             | |- context [present ?o] =>
                 destruct (present o) eqn:?; [discriminate|]
             end.
      intros _. destruct k; cbn; assumption. }
    now rewrite Hk.
Qed.

(** An update without any kind field, every handler list populated. *)
Lemma unknown_update_runs_nothing_witness :
  UpdateHandler.routeUpdate
    (register_handlers (map (fun k => (k, Sample.h1)) declaration_order)
                       Sample.bare)
    (UpdateHandler.initial
       (Update.Build_t 9 None None None None None None None None None None
          None None None None None None None None None None None None))
  = (Ok tt,
     UpdateHandler.initial
       (Update.Build_t 9 None None None None None None None None None None
          None None None None None None None None None None None None)).
Proof.
  apply (unknown_update_runs_nothing
           (register_handlers (map (fun k => (k, Sample.h1)) declaration_order)
                              Sample.bare)).
  reflexivity.
Defined.

(** What [logger] does around its continuation. *)
Lemma logger_run options clock next s :
  let level := match options with Some l => l | None => LogLevel.info end in
  let type := getUpdateType (UpdateContext.update (ctx s)) in
  let id (s' : State) := Update.update_id (UpdateContext.update (ctx s')) in
  logger options clock next s =
  match next (add_trace
                (if LogLevel.is_debug level || LogLevel.is_info level
                 then [StageLog (processing_line (Clock.iso_start clock)
                                                 type (id s))]
                 else []) s) with
  | (Ok _, s1) =>
      (Ok tt,
       add_trace
         (if LogLevel.is_debug level
          then [StageLog (completed_line (Clock.iso_finish clock) type (id s1)
                            (Clock.finish clock - Clock.start clock))]
          else []) s1)
  | (Throw e, s1) =>
      (Throw e,
       add_trace [ConsoleError (error_line (Clock.iso_finish clock) type (id s1))
                               e] s1)
  | (OutOfFuel, s1) => (OutOfFuel, s1)
  end.
Proof.
  intros level type id. unfold logger. fold level.
  rewrite bind_unfold. cbn [get_ctx]. fold type.
  rewrite bind_unfold.
  assert (Hstart : forall b text,
             when b (console_log text) s =
             (Ok tt, add_trace (if b then [StageLog text] else []) s)).
  { intros [|] text; cbn; [reflexivity|]. unfold ret. now rewrite add_trace_nil. }
  rewrite Hstart. unfold try_catch. rewrite bind_unfold.
  destruct (next _) as [[[]|e|] s1]; [| |reflexivity].
  - destruct level; cbn; unfold ret; rewrite ?add_trace_nil; reflexivity.
  - destruct level; reflexivity.
Qed.

(** X6.  [logger] in front of stages that proceed once: it calls its
    continuation once and returns.  At the levels [info] and [debug] its
    "Processing" line comes first, at [debug] its "Completed" line comes
    last, at [error] it writes nothing; the update type it prints is the
    one [getUpdateType] gives.  The update id and the duration it prints
    are safe integers. *)
Theorem logger_wraps_the_chain (this : UpdateHandler.t)
        (options : option LogLevel.t) (clock : Clock.t)
        (stages : list Stage) (update : Update.t) :
  UpdateHandler.middleware this = logger options clock :: map run_stage stages ->
  Forall (fun st => proceeds_once st = true) stages ->
  JS.safe_integer (Update.update_id update) = true ->
  JS.safe_integer (Clock.finish clock - Clock.start clock) = true ->
  let level := match options with Some l => l | None => LogLevel.info end in
  let type := getUpdateType update in
  let id := Update.update_id update in
  let r := UpdateHandler.processUpdate this update in
  fst r = Ok tt /\
  trace (snd r) =
    (if LogLevel.is_debug level || LogLevel.is_info level
     then [StageLog (processing_line (Clock.iso_start clock) type id)]
     else [])
    ++ flat_map before stages
    ++ route_events this (fresh update) declaration_order
    ++ flat_map after (rev stages)
    ++ (if LogLevel.is_debug level
        then [StageLog (completed_line (Clock.iso_finish clock) type id
                          (Clock.finish clock - Clock.start clock))]
        else []).
Proof.
  intros Hm Hall _ _ level type id r. subst r.
  rewrite (processUpdate_prefix this [] _ update Hm (Forall_nil _)).
  cbn [map app List.length flat_map rev]. rewrite length_map.
  pose proof (dispatch_at [] (logger options clock) (map run_stage stages))
    as D.
  cbn [app List.length] in D. rewrite D by reflexivity. clear D.
  rewrite logger_run. fold level.
  change (logger options clock :: map run_stage stages)
    with ([logger options clock] ++ map run_stage stages).
  rewrite dispatch_suffix by (auto; reflexivity).
  rewrite routeUpdate_run. cbn [then_after].
  split; trace_norm; reflexivity.
Qed.

(** [logger] at level [debug] in front of stage A and a message handler. *)
Lemma logger_wraps_the_chain_witness :
  let u := Sample.message_update "hi" in
  let clock := {| Clock.start := 1000; Clock.iso_start := "t0";
                  Clock.finish := 1007; Clock.iso_finish := "t1" |} in
  let r := UpdateHandler.processUpdate
             (register [Sample.stageA]
                (UpdateHandler.use (logger (Some LogLevel.debug) clock)
                   (UpdateHandler.onMessage Sample.h1 Sample.bare))) u in
  fst r = Ok tt /\
  trace (snd r) =
    [StageLog "[t0] Processing message update 1";
     StageLog "A before"; HandlerCall "h1" (fresh u); StageLog "A after";
     StageLog "[t1] Completed message update 1 in 7ms"].
Proof.
  intros u clock.
  apply (logger_wraps_the_chain
           (register [Sample.stageA]
              (UpdateHandler.use (logger (Some LogLevel.debug) clock)
                 (UpdateHandler.onMessage Sample.h1 Sample.bare)))
           (Some LogLevel.debug) clock [Sample.stageA] u).
  - reflexivity.
  - repeat constructor.
  - reflexivity.
  - reflexivity.
Defined.

(** X7.  [logger] never swallows a failure: when a later stage throws,
    [logger] writes its "Error processing" line, at every level, and
    rethrows, so [processUpdate] still throws to its caller after writing
    its own line; no "Completed" line is written.  The update id it
    prints is a safe integer. *)
Theorem logger_rethrows (this : UpdateHandler.t)
        (options : option LogLevel.t) (clock : Clock.t)
        (pre post : list Stage) (l : list string) (e : Error) (tail : Stage)
        (update : Update.t) :
  let B := map Log l ++ Raise e :: tail in
  UpdateHandler.middleware this =
    logger options clock :: map run_stage (pre ++ B :: post) ->
  Forall (fun st => proceeds_once st = true) pre ->
  JS.safe_integer (Update.update_id update) = true ->
  let level := match options with Some l => l | None => LogLevel.info end in
  let type := getUpdateType update in
  let id := Update.update_id update in
  let r := UpdateHandler.processUpdate this update in
  fst r = Throw e /\
  trace (snd r) =
    (if LogLevel.is_debug level || LogLevel.is_info level
     then [StageLog (processing_line (Clock.iso_start clock) type id)]
     else [])
    ++ flat_map before pre ++ map StageLog l
    ++ [ConsoleError (error_line (Clock.iso_finish clock) type id) e;
        ConsoleError "Error processing update:" e].
Proof.
  intros B Hm Hpre _ level type id r. subst r.
  rewrite (processUpdate_prefix this [] _ update Hm (Forall_nil _)).
  cbn [map app List.length flat_map rev]. rewrite length_map.
  pose proof (dispatch_at [] (logger options clock)
                (map run_stage (pre ++ B :: post))) as D.
  cbn [app List.length] in D. rewrite D by reflexivity. clear D.
  rewrite logger_run. fold level.
  rewrite map_app. cbn [map].
  rewrite length_app. cbn [List.length].
  change (logger options clock
            :: map run_stage pre ++ run_stage B :: map run_stage post)
    with ([logger options clock]
            ++ map run_stage pre ++ run_stage B :: map run_stage post).
  rewrite dispatch_prefix by (auto; reflexivity).
  assert (E : forall (a r : list MiddlewareFunction) x y,
             a ++ x ++ y :: r = (a ++ x) ++ y :: r)
    by (intros; now rewrite app_assoc).
  rewrite E.
  rewrite dispatch_at
    by (cbn; rewrite ?length_app, ?length_map; cbn; first [reflexivity|lia]).
  assert (HB : forall next s,
             run_stage B next s =
             (Throw e, add_trace (map StageLog l) s))
    by (intros; unfold B; now rewrite run_stage_logs_then).
  rewrite HB. cbn [then_after].
  split; trace_norm; reflexivity.
Qed.

(** [logger] at level [error] in front of stage A and a failing stage. *)
Lemma logger_rethrows_witness :
  let u := Sample.message_update "hi" in
  let clock := {| Clock.start := 1000; Clock.iso_start := "t0";
                  Clock.finish := 1007; Clock.iso_finish := "t1" |} in
  let r := UpdateHandler.processUpdate
             (register [Sample.stageA; Sample.stageFail]
                (UpdateHandler.use (logger (Some LogLevel.error) clock)
                   (UpdateHandler.onMessage Sample.h1 Sample.bare))) u in
  fst r = Throw "stage failed" /\
  trace (snd r) =
    [StageLog "A before"; StageLog "B before";
     ConsoleError "[t1] Error processing message update 1:" "stage failed";
     ConsoleError "Error processing update:" "stage failed"].
Proof.
  intros u clock.
  apply (logger_rethrows
           (register [Sample.stageA; Sample.stageFail]
              (UpdateHandler.use (logger (Some LogLevel.error) clock)
                 (UpdateHandler.onMessage Sample.h1 Sample.bare)))
           (Some LogLevel.error) clock [Sample.stageA] [] ["B before"]
           "stage failed" [Proceed] u).
  - reflexivity.
  - repeat constructor.
  - reflexivity.
Defined.

(** ** commandParser, forwards *)

Lemma split_no_separator t c : contains c t = false -> JS.split t c = [t].
Proof.
  induction t as [|a t IH]; [reflexivity|]. cbn.
  destruct (Ascii.eqb a c); [discriminate|]. cbn. intros H.
  now rewrite IH.
Qed.

Lemma split_append_separator t c s :
  contains c t = false ->
  JS.split (t ++ String c s) c = t :: JS.split s c.
Proof.
  induction t as [|a t IH]; cbn.
  - now rewrite Ascii.eqb_refl.
  - destruct (Ascii.eqb a c); [discriminate|]. cbn. intros H.
    now rewrite IH.
Qed.

(** Splitting what was joined gives the pieces back. *)
Lemma split_join toks c :
  toks <> [] ->
  Forall (fun t => contains c t = false) toks ->
  JS.split (JS.join (sep_string c) toks) c = toks.
Proof.
  induction toks as [|t toks IH]; [contradiction|]. intros _ Hall.
  inversion Hall as [|? ? Ht Hrest]; subst.
  destruct toks as [|t' toks].
  - cbn. now apply split_no_separator.
  - rewrite join_cons. cbn [sep_string append].
    rewrite split_append_separator by assumption.
    rewrite IH; [reflexivity|discriminate|assumption].
Qed.

Lemma contains_append c a b :
  contains c (a ++ b) = contains c a || contains c b.
Proof.
  induction a as [|x a IH]; [reflexivity|]. cbn. rewrite IH.
  now rewrite orb_assoc.
Qed.

Lemma contains_join c d toks :
  c <> d ->
  Forall (fun t => contains c t = false) toks ->
  contains c (JS.join (sep_string d) toks) = false.
Proof.
  intros Hcd. induction toks as [|t toks IH]; intros Hall; [reflexivity|].
  inversion Hall as [|? ? Ht Hrest]; subst.
  destruct toks as [|t' toks]; [exact Ht|].
  rewrite join_cons, !contains_append, Ht, IH by assumption.
  cbn. destruct (Ascii.eqb_spec d c); [congruence|reflexivity].
Qed.

(** X8.  The parser on [/name@bot a b ...]: for a name and bot pieces
    without space or [@] and arguments without space, the text made of the
    marker, the pieces joined by [@] and the arguments, all joined by
    single spaces, is parsed back into exactly that name, the first bot
    piece (if any) and those arguments. *)
Theorem commandParser_stores_the_tokens (next : M unit) (s : State)
        (m : Message.t) (name : string) (more arguments : list string) :
  command_source (UpdateContext.update (ctx s)) = Some m ->
  Forall (fun t => contains " " t = false) (name :: more) ->
  Forall (fun t => contains "@" t = false) (name :: more) ->
  Forall (fun t => contains " " t = false) arguments ->
  Message.text m =
    Some (JS.join " " (("/" ++ JS.join "@" (name :: more))%string
                         :: arguments)) ->
  commandParser next s =
  next (with_ctx (parsed (UpdateContext.update (ctx s)) name arguments
                         (hd_error more)) s).
Proof.
  intros Hsrc Hsp Hat Hargs Htext.
  set (first := ("/" ++ JS.join "@" (name :: more))%string) in *.
  set (text := JS.join " " (first :: arguments)) in *.
  assert (Hfirst : contains " " first = false).
  { unfold first. cbn [append contains].
    change (JS.join "@" (name :: more))
      with (JS.join (sep_string "@") (name :: more)).
    rewrite contains_join by (auto; discriminate). reflexivity. }
  assert (Hparts : JS.split text " " = first :: arguments).
  { apply (split_join (first :: arguments) " "); [discriminate|].
    constructor; assumption. }
  assert (Hstart : JS.startsWith text "/" = true).
  { unfold text. destruct arguments; reflexivity. }
  assert (Hmsg : Update.message (UpdateContext.update (ctx s)) = Some m \/
                 (Update.message (UpdateContext.update (ctx s)) = None /\
                  Update.business_message (UpdateContext.update (ctx s)) = Some m)).
  { unfold command_source in Hsrc.
    destruct (Update.message (UpdateContext.update (ctx s)));
      [left; exact Hsrc|right; split; [reflexivity|exact Hsrc]]. }
  rewrite (commandParser_run next s m text Hmsg Htext Hstart).
  cbv zeta. rewrite Hparts. cbn [hd tl]. unfold first.
  cbn [append JS.substring1].
  change (JS.join "@" (name :: more))
    with (JS.join (sep_string "@") (name :: more)).
  rewrite (split_join (name :: more) "@") by (auto; discriminate).
  cbn [hd]. destruct more; reflexivity.
Qed.

(** The text [/echo@my_bot hello world] of a business message. *)
Lemma commandParser_stores_the_tokens_witness :
  commandParser (ret tt)
    (UpdateHandler.initial (Sample.business_update "/echo@my_bot hello world"))
  = (Ok tt,
     with_ctx (parsed (Sample.business_update "/echo@my_bot hello world")
                      "echo" ["hello"; "world"] (Some "my_bot"))
              (UpdateHandler.initial
                 (Sample.business_update "/echo@my_bot hello world"))).
Proof.
  apply (commandParser_stores_the_tokens (ret tt)
           (UpdateHandler.initial
              (Sample.business_update "/echo@my_bot hello world"))
           (Sample.text_message "/echo@my_bot hello world")
           "echo" ["my_bot"] ["hello"; "world"]);
    try reflexivity; repeat constructor.
Defined.

(** ** Updates without a command *)

(** Without a marked text the parser changes nothing and proceeds. *)
Lemma commandParser_plain next s :
  marked (UpdateContext.update (ctx s)) = false ->
  commandParser next s = next s.
Proof.
  unfold marked, command_source, commandParser. intros H.
  rewrite bind_unfold. cbn [get_ctx].
  destruct (match Update.message (UpdateContext.update (ctx s)) with
            | Some m => Some m
            | None => Update.business_message (UpdateContext.update (ctx s))
            end) as [[ch [tx|]]|]; cbn [Message.text] in *;
    try reflexivity.
  now rewrite H.
Qed.

(** Without a truthy command the router calls the default handler, or its
    continuation when there is none. *)
Lemma middleware_no_command this next s :
  truthy_string (UpdateContext.command (ctx s)) = false ->
  CommandRouter.middleware this next s =
  match CommandRouter.defaultHandler this with
  | Some h => call h s
  | None => next s
  end.
Proof.
  intros H. unfold CommandRouter.middleware. rewrite bind_unfold.
  cbn [get_ctx]. rewrite H. cbn [negb].
  now destruct (CommandRouter.defaultHandler this).
Qed.

(** The chain [commandParser(); router.middleware()] once the parser has
    run and left no truthy command. *)
Lemma dispatch_router_no_command R next s :
  index s = 1 ->
  truthy_string (UpdateContext.command (ctx s)) = false ->
  UpdateHandler.dispatch [commandParser; CommandRouter.middleware R] next 1 s =
  match CommandRouter.defaultHandler R with
  | Some h => call h (advance 2 [] s)
  | None => next (advance 2 [] s)
  end.
Proof.
  intros Hi Hc.
  rewrite (dispatch_at [commandParser] (CommandRouter.middleware R) [])
    by exact Hi.
  rewrite middleware_no_command by exact Hc.
  destruct (CommandRouter.defaultHandler R); [reflexivity|].
  now rewrite dispatch_past_end by (cbn; lia).
Qed.

Lemma bot_middleware base R :
  UpdateHandler.middleware base = [] ->
  UpdateHandler.middleware
    (UpdateHandler.use (CommandRouter.middleware R)
       (UpdateHandler.use commandParser base)) =
  [commandParser; CommandRouter.middleware R].
Proof. cbn. now intros ->. Qed.

(** X9.  A bot made of [commandParser()] and a command router, on an
    update without a marked text (no message, no text, or a text that does
    not start with the marker; a [message] without such a text hides a
    command in [business_message]): without a default handler the update
    reaches the kind handlers as if the two stages were not there; with a
    default handler, that handler is called once with the untouched
    context, whatever the kind of the update, and no kind handler runs. *)
Theorem updates_without_command (base : UpdateHandler.t)
        (R : CommandRouter.t) (update : Update.t) :
  UpdateHandler.middleware base = [] ->
  marked update = false ->
  let bot := UpdateHandler.use (CommandRouter.middleware R)
               (UpdateHandler.use commandParser base) in
  let r := UpdateHandler.processUpdate bot update in
  match CommandRouter.defaultHandler R with
  | None =>
      fst r = Ok tt /\
      trace (snd r) = route_events base (fresh update) declaration_order
  | Some h =>
      fst r = match hthrows h with Some e => Throw e | None => Ok tt end /\
      trace (snd r) =
        HandlerCall (hname h) (fresh update)
        :: match hthrows h with
           | Some e => [ConsoleError "Error processing update:" e]
           | None => []
           end
  end.
Proof.
  intros Hbase Hplain bot r. subst r.
  rewrite (processUpdate_prefix bot [] _ update (bot_middleware base R Hbase)
             (Forall_nil _)).
  cbn [map app List.length flat_map rev].
  pose proof (dispatch_at [] commandParser [CommandRouter.middleware R]) as D.
  cbn [app List.length] in D. rewrite D by reflexivity. clear D.
  rewrite commandParser_plain by exact Hplain.
  rewrite dispatch_router_no_command by reflexivity.
  destruct (CommandRouter.defaultHandler R) as [h|].
  - rewrite call_run. destruct (hthrows h); split; trace_norm; reflexivity.
  - rewrite routeUpdate_run. split; trace_norm; reflexivity.
Qed.

(** A callback query, with a default handler and without. *)
Lemma updates_without_command_witness :
  let base := UpdateHandler.onCallbackQuery Sample.onCallback Sample.bare in
  let u := Sample.callback_update in
  trace (snd (UpdateHandler.processUpdate
                (UpdateHandler.use (CommandRouter.middleware Sample.router)
                   (UpdateHandler.use commandParser base)) u))
  = [HandlerCall "callback" (fresh u)]
  /\ trace (snd (UpdateHandler.processUpdate
                   (UpdateHandler.use
                      (CommandRouter.middleware
                         (CommandRouter.default Sample.h1 Sample.router))
                      (UpdateHandler.use commandParser base)) u))
     = [HandlerCall "h1" (fresh u)].
Proof.
  split.
  - apply (updates_without_command
             (UpdateHandler.onCallbackQuery Sample.onCallback Sample.bare)
             Sample.router Sample.callback_update eq_refl eq_refl).
  - apply (updates_without_command
             (UpdateHandler.onCallbackQuery Sample.onCallback Sample.bare)
             (CommandRouter.default Sample.h1 Sample.router)
             Sample.callback_update eq_refl eq_refl).
Defined.

Lemma bare_marker_parses_empty text :
  bare_marker text = true ->
  JS.startsWith text "/" = true /\
  hd EmptyString
     (JS.split (JS.substring1 (hd EmptyString (JS.split text " "))) "@")
  = EmptyString.
Proof.
  destruct text as [|a [|b rest]]; cbn [bare_marker]; try discriminate.
  - intros H. apply Ascii.eqb_eq in H. subst a. split; reflexivity.
  - intros H. apply andb_true_iff in H. destruct H as (Ha & Hb).
    apply Ascii.eqb_eq in Ha. subst a. split; [reflexivity|].
    apply orb_true_iff in Hb. destruct Hb as [Hb|Hb];
      apply Ascii.eqb_eq in Hb; subst b.
    + cbn. reflexivity.
    + pose proof (split_not_nil rest " ") as Hnil.
      cbn. destruct (JS.split rest " ") as [|tok toks]; [contradiction|].
      cbn. reflexivity.
Qed.

(** X10.  A marker followed by nothing, by a space or by [@] gives the
    empty command, which the router does not take for a command: the
    update goes to the default handler, or on to the kind handlers when
    there is none, with [command] set to the empty string. *)
Theorem bare_marker_is_no_command (base : UpdateHandler.t)
        (R : CommandRouter.t) (update : Update.t) (m : Message.t)
        (text : string) :
  UpdateHandler.middleware base = [] ->
  command_source update = Some m ->
  Message.text m = Some text ->
  bare_marker text = true ->
  exists arguments bot,
    let c := parsed update EmptyString arguments bot in
    let r := UpdateHandler.processUpdate
               (UpdateHandler.use (CommandRouter.middleware R)
                  (UpdateHandler.use commandParser base)) update in
    match CommandRouter.defaultHandler R with
    | None =>
        fst r = Ok tt /\
        trace (snd r) = route_events base c declaration_order
    | Some h =>
        fst r = match hthrows h with Some e => Throw e | None => Ok tt end /\
        trace (snd r) =
          HandlerCall (hname h) c
          :: match hthrows h with
             | Some e => [ConsoleError "Error processing update:" e]
             | None => []
             end
    end.
Proof.
  intros Hbase Hsrc Htext Hbare.
  destruct (bare_marker_parses_empty text Hbare) as (Hstart & Hempty).
  exists (tl (JS.split text " ")),
         (nth_error
            (JS.split (JS.substring1 (hd EmptyString (JS.split text " "))) "@")
            1).
  intros c r. subst r.
  set (bot := UpdateHandler.use (CommandRouter.middleware R)
                (UpdateHandler.use commandParser base)).
  rewrite (processUpdate_prefix bot [] _ update (bot_middleware base R Hbase)
             (Forall_nil _)).
  cbn [map app List.length flat_map rev].
  pose proof (dispatch_at [] commandParser [CommandRouter.middleware R]) as D.
  cbn [app List.length] in D. rewrite D by reflexivity. clear D.
  assert (Hmsg : Update.message update = Some m \/
                 (Update.message update = None /\
                  Update.business_message update = Some m)).
  { unfold command_source in Hsrc.
    destruct (Update.message update);
      [left; exact Hsrc|right; split; [reflexivity|exact Hsrc]]. }
  match goal with
  | |- context [commandParser ?n ?s] =>
      rewrite (commandParser_run n s m text Hmsg Htext Hstart)
  end.
  cbv zeta. rewrite Hempty.
  rewrite dispatch_router_no_command by reflexivity.
  destruct (CommandRouter.defaultHandler R) as [h|].
  - rewrite call_run. destruct (hthrows h); split; trace_norm; reflexivity.
  - rewrite routeUpdate_run. split; trace_norm; reflexivity.
Qed.

(** The text [/ hello]: the message handler runs. *)
Lemma bare_marker_is_no_command_witness :
  exists arguments bot,
    let u := Sample.message_update "/ hello" in
    let c := parsed u EmptyString arguments bot in
    let r := UpdateHandler.processUpdate
               (UpdateHandler.use (CommandRouter.middleware Sample.router)
                  (UpdateHandler.use commandParser
                     (UpdateHandler.onMessage Sample.h1 Sample.bare))) u in
    fst r = Ok tt /\
    trace (snd r) =
      route_events (UpdateHandler.onMessage Sample.h1 Sample.bare) c
                   declaration_order.
Proof.
  apply (bare_marker_is_no_command
           (UpdateHandler.onMessage Sample.h1 Sample.bare) Sample.router
           (Sample.message_update "/ hello") (Sample.text_message "/ hello")
           "/ hello"); reflexivity.
Defined.

(** ** Registering commands *)

Lemma map_get_set_same {V} k (v : V) m :
  JS.map_get k (JS.map_set k v m) = Some v.
Proof.
  induction m as [|[k' v'] m IH]; cbn.
  - now rewrite String.eqb_refl.
  - destruct (String.eqb_spec k' k) as [->|Hne]; cbn.
    + now rewrite String.eqb_refl.
    + destruct (String.eqb_spec k' k); [contradiction|exact IH].
Qed.

Lemma map_get_set_other {V} k k' (v : V) m :
  k <> k' -> JS.map_get k' (JS.map_set k v m) = JS.map_get k' m.
Proof.
  intros Hne. induction m as [|[k0 v0] m IH]; cbn.
  - destruct (String.eqb_spec k k'); [contradiction|reflexivity].
  - destruct (String.eqb_spec k0 k) as [->|Hk]; cbn.
    + destruct (String.eqb_spec k k'); [contradiction|reflexivity].
    + destruct (String.eqb_spec k0 k'); [reflexivity|exact IH].
Qed.

(** [command] sets every key of the definition, in order. *)
Lemma command_sets_keys config this :
  CommandRouter.commandMap (CommandRouter.command config this) =
    fold_left (fun acc k => JS.map_set k config acc)
              (registration_keys config) (CommandRouter.commandMap this)
  /\ CommandRouter.defaultHandler (CommandRouter.command config this) =
     CommandRouter.defaultHandler this
  /\ CommandRouter.unknownCommandHandler (CommandRouter.command config this) =
     CommandRouter.unknownCommandHandler this
  /\ CommandRouter.helpCommand (CommandRouter.command config this) =
     CommandRouter.helpCommand this.
Proof.
  unfold CommandRouter.command, registration_keys, CommandRouter.truthy_bool.
  assert (F : forall (key : string -> string) aliases m,
             fold_left (fun acc alias => JS.map_set (key alias) config acc)
                       aliases m =
             fold_left (fun acc k => JS.map_set k config acc)
                       (map key aliases) m).
  { intros key aliases. induction aliases as [|a aliases IH]; intros m;
      [reflexivity|]. cbn. apply IH. }
  destruct (CommandConfig.aliases config) as [aliases|];
    destruct (CommandConfig.ignoreCase config) as [[|]|];
    cbn [CommandRouter.with_map CommandRouter.commandMap map fold_left
         CommandRouter.defaultHandler CommandRouter.unknownCommandHandler
         CommandRouter.helpCommand];
    repeat split; try reflexivity; apply (F _ aliases).
Qed.

Lemma fold_set_lookup (config : CommandConfig.t) k keys : forall m,
  JS.map_get k (fold_left (fun acc k0 => JS.map_set k0 config acc) keys m) =
  if existsb (String.eqb k) keys then Some config else JS.map_get k m.
Proof.
  induction keys as [|k0 keys IH]; intros m; [reflexivity|].
  cbn [fold_left existsb]. rewrite IH.
  destruct (existsb (String.eqb k) keys); [now rewrite orb_true_r|].
  rewrite orb_false_r. destruct (String.eqb_spec k k0) as [->|Hne].
  - apply map_get_set_same.
  - apply map_get_set_other. congruence.
Qed.

(** X11.  After [command(config)] every key of the definition, its name
    and each alias (lower-cased when [ignoreCase] is set, the names then
    being strings of ASCII characters), resolves to that definition,
    replacing whatever the key was bound to; every other key keeps its
    binding, and the default handler, the unknown-command handler and the
    help command are untouched. *)
Theorem command_binds_name_and_aliases (config : CommandConfig.t)
        (this : CommandRouter.t) (k : string) :
  ascii_keys config = true ->
  let after := CommandRouter.command config this in
  JS.map_get k (CommandRouter.commandMap after) =
    (if existsb (String.eqb k) (registration_keys config)
     then Some config
     else JS.map_get k (CommandRouter.commandMap this))
  /\ CommandRouter.defaultHandler after = CommandRouter.defaultHandler this
  /\ CommandRouter.unknownCommandHandler after =
     CommandRouter.unknownCommandHandler this
  /\ CommandRouter.helpCommand after = CommandRouter.helpCommand this.
Proof.
  intros _ after. subst after.
  destruct (command_sets_keys config this) as (Hm & Hd & Hu & Hh).
  rewrite Hm, Hd, Hu, Hh. repeat split. apply fold_set_lookup.
Qed.

(** [Start] with the alias [GO], registered with [ignoreCase]: the keys
    are [start] and [go]; [GO] is no key. *)
Lemma command_binds_name_and_aliases_witness :
  let config :=
    {| CommandConfig.command := "Start";
       CommandConfig.description := None;
       CommandConfig.handler := Sample.h1;
       CommandConfig.aliases := Some ["GO"];
       CommandConfig.minArgs := None;
       CommandConfig.maxArgs := None;
       CommandConfig.ignoreCase := Some true |} in
  let after := CommandRouter.command config Sample.router in
  JS.map_get "go" (CommandRouter.commandMap after) = Some config
  /\ JS.map_get "GO" (CommandRouter.commandMap after) = None
  /\ JS.map_get "start" (CommandRouter.commandMap after) = Some config.
Proof.
  intros config after. split; [|split].
  - apply (proj1 (command_binds_name_and_aliases config Sample.router "go"
                    eq_refl)).
  - apply (proj1 (command_binds_name_and_aliases config Sample.router "GO"
                    eq_refl)).
  - apply (proj1 (command_binds_name_and_aliases config Sample.router "start"
                    eq_refl)).
Defined.

(** X12.  Alias equivalence.  For a definition registered without
    [ignoreCase], invoking its name or any of its aliases (other than the
    help command) with an argument count within the declared bounds calls
    the definition's handler once, with the context as parsed. *)
Theorem alias_calls_the_same_handler (config : CommandConfig.t)
        (router : CommandRouter.t) (next : M unit) (s : State)
        (cmd : string) (a : list string) :
  CommandConfig.ignoreCase config <> Some true ->
  In cmd (CommandConfig.command config ::
          match CommandConfig.aliases config with
          | Some aliases => aliases
          | None => []
          end) ->
  UpdateContext.command (ctx s) = Some cmd ->
  cmd <> EmptyString ->
  cmd <> CommandRouter.helpCommand router ->
  UpdateContext.args (ctx s) = Some a ->
  (forall m, CommandConfig.minArgs config = Some m ->
             (m <= Z.of_nat (List.length a))%Z) ->
  (forall mx, CommandConfig.maxArgs config = Some mx ->
              (Z.of_nat (List.length a) <= mx)%Z) ->
  CommandRouter.middleware (CommandRouter.command config router) next s =
  (match hthrows (CommandConfig.handler config) with
   | Some e => Throw e
   | None => Ok tt
   end,
   add_trace [HandlerCall (hname (CommandConfig.handler config)) (ctx s)] s).
Proof.
  intros Hcase Hin Hc Hne Hhelp Ha Hmin Hmax.
  destruct (command_sets_keys config router) as (Hm & _ & _ & Hh).
  assert (Hget : JS.map_get cmd
                   (CommandRouter.commandMap
                      (CommandRouter.command config router)) = Some config).
  { rewrite Hm, fold_set_lookup.
    replace (existsb (String.eqb cmd) (registration_keys config)) with true;
      [reflexivity|].
    symmetry. apply existsb_exists. exists cmd. split; [|apply String.eqb_refl].
    unfold registration_keys.
    destruct (CommandConfig.ignoreCase config) as [[|]|];
      [congruence| |]; now rewrite map_id. }
  rewrite (middleware_known _ next s cmd config a)
    by (auto; now rewrite Hh).
  rewrite not_below_min, not_above_max by assumption.
  apply call_run.
Qed.

(** [/p] reaches the handler of [ping]. *)
Lemma alias_calls_the_same_handler_witness :
  let s := Sample.after_parser (Sample.message_update "/p") "p" [] in
  CommandRouter.middleware
    (CommandRouter.command Sample.ping CommandRouter.createCommandRouter)
    (ret tt) s
  = (Ok tt, add_trace [HandlerCall "ping" (ctx s)] s).
Proof.
  apply (alias_calls_the_same_handler Sample.ping
           CommandRouter.createCommandRouter (ret tt)
           (Sample.after_parser (Sample.message_update "/p") "p" [])
           "p" []); try reflexivity; try discriminate.
  - right. left. reflexivity.
  - intros mx Hmx. cbn in Hmx. injection Hmx as <-. cbn. lia.
Defined.

(** ** ignoreCase *)

Lemma lower_ascii_idempotent a :
  JS.lower_ascii (JS.lower_ascii a) = JS.lower_ascii a.
Proof.
  destruct a as [[|] [|] [|] [|] [|] [|] [|] [|]]; reflexivity.
Qed.

Lemma toLowerCase_idempotent s :
  JS.toLowerCase (JS.toLowerCase s) = JS.toLowerCase s.
Proof.
  induction s as [|a s IH]; [reflexivity|]. cbn.
  now rewrite lower_ascii_idempotent, IH.
Qed.

Lemma map_get_not_key {V} k (m : list (string * V)) :
  ~ In k (map_keys m) -> JS.map_get k m = None.
Proof.
  induction m as [|[k' v'] m IH]; intros Hk; [reflexivity|].
  cbn in *. destruct (String.eqb_spec k' k); [exfalso; auto|].
  apply IH. auto.
Qed.

Lemma map_set_keys {V} (P : string -> Prop) k (v : V) m :
  P k -> Forall P (map_keys m) -> Forall P (map_keys (JS.map_set k v m)).
Proof.
  intros Hk. induction m as [|[k' v'] m IH]; intros Hall; cbn.
  - constructor; [exact Hk|constructor].
  - inversion Hall; subst. destruct (String.eqb k' k); cbn.
    + constructor; assumption.
    + constructor; [assumption|]. now apply IH.
Qed.

(** Commands registered with [ignoreCase] only have lower-case keys. *)
Lemma ignoreCase_keys configs : forall this,
  Forall (fun c => CommandConfig.ignoreCase c = Some true) configs ->
  Forall (fun k => JS.toLowerCase k = k)
         (map_keys (CommandRouter.commandMap this)) ->
  Forall (fun k => JS.toLowerCase k = k)
         (map_keys (CommandRouter.commandMap
                      (CommandRouter.commands configs this)))
  /\ CommandRouter.helpCommand (CommandRouter.commands configs this) =
     CommandRouter.helpCommand this
  /\ CommandRouter.unknownCommandHandler (CommandRouter.commands configs this) =
     CommandRouter.unknownCommandHandler this.
Proof.
  induction configs as [|c configs IH]; intros this Hall Hkeys.
  - repeat split. exact Hkeys.
  - inversion Hall as [|? ? Hc Hrest]; subst.
    destruct (command_sets_keys c this) as (Hm & _ & Hu & Hh).
    cbn [CommandRouter.commands fold_left].
    fold (CommandRouter.commands configs (CommandRouter.command c this)).
    destruct (IH (CommandRouter.command c this) Hrest) as (IHk & IHh & IHu).
    + rewrite Hm. unfold registration_keys. rewrite Hc.
      set (keys := map JS.toLowerCase _).
      assert (Hlow : Forall (fun k => JS.toLowerCase k = k) keys).
      { unfold keys. apply Forall_forall. intros k Hin.
        apply in_map_iff in Hin. destruct Hin as (x & <- & _).
        apply toLowerCase_idempotent. }
      clearbody keys. revert Hkeys. generalize (CommandRouter.commandMap this).
      induction Hlow as [|k keys Hk Hlow IHl]; intros m Hm0; [exact Hm0|].
      cbn [fold_left]. apply IHl. now apply map_set_keys.
    + repeat split; [exact IHk|congruence|congruence].
Qed.

(** X13.  [ignoreCase] only lower-cases the key at registration; the
    router looks the typed command up as it is.  So in a router all of
    whose commands are registered with [ignoreCase], a command typed with
    an upper-case letter resolves to nothing: it goes to the
    unknown-command handler, or gets the unknown-command reply. *)
Theorem ignoreCase_lookup_is_exact (base : CommandRouter.t)
        (configs : list CommandConfig.t) (next : M unit) (s : State)
        (cmd : string) :
  CommandRouter.commandMap base = [] ->
  Forall (fun c => CommandConfig.ignoreCase c = Some true) configs ->
  let this := CommandRouter.commands configs base in
  UpdateContext.command (ctx s) = Some cmd ->
  JS.toLowerCase cmd <> cmd ->
  cmd <> CommandRouter.helpCommand this ->
  JS.map_get cmd (CommandRouter.commandMap this) = None /\
  CommandRouter.middleware this next s =
  match CommandRouter.unknownCommandHandler this with
  | Some h => call h s
  | None =>
      (Ok tt,
       add_trace
         (reply_events (ctx s)
            (CommandRouter.unknown_text cmd (CommandRouter.helpCommand this)))
         s)
  end.
Proof.
  intros Hbase Hall this Hc Hcase Hhelp.
  destruct (ignoreCase_keys configs base Hall) as (Hkeys & _ & _).
  { rewrite Hbase. constructor. }
  fold this in Hkeys.
  assert (Hget : JS.map_get cmd (CommandRouter.commandMap this) = None).
  { apply map_get_not_key. intros Hin.
    rewrite Forall_forall in Hkeys. now apply Hkeys in Hin. }
  split; [exact Hget|].
  assert (Hne : cmd <> EmptyString) by (intros ->; now apply Hcase).
  destruct (CommandRouter.unknownCommandHandler this) as [h|] eqn:Hu.
  - unfold CommandRouter.middleware. rewrite bind_unfold. cbn [get_ctx].
    rewrite Hc, truthy_string_nonempty by assumption. cbn [negb].
    destruct (String.eqb_spec cmd (CommandRouter.helpCommand this));
      [contradiction|].
    now rewrite Hget, Hu.
  - now apply middleware_unknown.
Qed.

(** [start] registered with [ignoreCase], [/Start] typed. *)
Lemma ignoreCase_lookup_is_exact_witness :
  let config :=
    {| CommandConfig.command := "Start";
       CommandConfig.description := None;
       CommandConfig.handler := Sample.h1;
       CommandConfig.aliases := None;
       CommandConfig.minArgs := None;
       CommandConfig.maxArgs := None;
       CommandConfig.ignoreCase := Some true |} in
  let this := CommandRouter.commands [config] CommandRouter.createCommandRouter in
  let s := Sample.after_parser (Sample.message_update "/Start") "Start" [] in
  JS.map_get "Start" (CommandRouter.commandMap this) = None /\
  CommandRouter.middleware this (ret tt) s =
  (Ok tt,
   add_trace
     [SendMessage 42
        "Unknown command: /Start. Type /help for available commands."] s).
Proof.
  apply (ignoreCase_lookup_is_exact CommandRouter.createCommandRouter
           [{| CommandConfig.command := "Start";
               CommandConfig.description := None;
               CommandConfig.handler := Sample.h1;
               CommandConfig.aliases := None;
               CommandConfig.minArgs := None;
               CommandConfig.maxArgs := None;
               CommandConfig.ignoreCase := Some true |}]
           (ret tt)
           (Sample.after_parser (Sample.message_update "/Start") "Start" [])
           "Start"); try reflexivity; try discriminate.
  repeat constructor.
Defined.

(** ** The webhook adapter *)

Lemma secret_check_passes adapter request env :
  secret_accepted adapter request env ->
  CloudflareWorkersAdapter.verifyWebhookSecret adapter
  && truthy_string (CloudflareWorkerEnv.TELEGRAM_WEBHOOK_SECRET env)
  && CloudflareWorkersAdapter.differs
       (Request.secret_token request)
       (CloudflareWorkerEnv.TELEGRAM_WEBHOOK_SECRET env) = false.
Proof.
  intros [H|[H|H]].
  - now rewrite H.
  - now rewrite H, andb_false_r.
  - rewrite H. unfold CloudflareWorkersAdapter.differs.
    destruct (CloudflareWorkerEnv.TELEGRAM_WEBHOOK_SECRET env) as [sec|].
    + now rewrite String.eqb_refl, andb_false_r.
    + now rewrite andb_false_r.
Qed.

(** [handleWebhook] on a request that passes the method and secret checks
    and carries an update. *)
Lemma handleWebhook_accepted adapter request env update :
  Request.method request = "POST" ->
  secret_accepted adapter request env ->
  Request.body request = Json (Some update) ->
  CloudflareWorkersAdapter.handleWebhook adapter request env =
  match UpdateHandler.processUpdate
          (CloudflareWorkersAdapter.updateHandler adapter) update with
  | (Ok _, s) => Some (respond "OK" 200, trace s)
  | (Throw error, s) =>
      Some (CloudflareWorkersAdapter.failed adapter request error (trace s))
  | (OutOfFuel, _) => None
  end.
Proof.
  intros Hm Hs Hb. unfold CloudflareWorkersAdapter.handleWebhook.
  rewrite Hm, secret_check_passes, Hb by assumption. reflexivity.
Qed.

(** X14.  A failing handler does not fail the webhook: for a delivered
    update, behind stages that proceed once, [handleWebhook] answers
    [200 OK] whatever the registered handlers throw; the failures only
    show as console lines in the trace. *)
Theorem webhook_ok_despite_handler_failures
        (adapter : CloudflareWorkersAdapter.t) (request : Request.t)
        (env : CloudflareWorkerEnv.t) (update : Update.t)
        (stages : list Stage) :
  Request.method request = "POST" ->
  secret_accepted adapter request env ->
  Request.body request = Json (Some update) ->
  let this := CloudflareWorkersAdapter.updateHandler adapter in
  UpdateHandler.middleware this = map run_stage stages ->
  Forall (fun st => proceeds_once st = true) stages ->
  CloudflareWorkersAdapter.handleWebhook adapter request env =
  Some (respond "OK" 200,
        flat_map before stages
        ++ route_events this (fresh update) declaration_order
        ++ flat_map after (rev stages)).
Proof.
  intros Hm Hs Hb this Hmw Hall.
  rewrite (handleWebhook_accepted adapter request env update) by assumption.
  fold this. rewrite (processUpdate_proceeding this stages update)
    by assumption.
  reflexivity.
Qed.

(** Three message handlers, the second one throwing. *)
Lemma webhook_ok_despite_handler_failures_witness :
  let u := Sample.message_update "hi" in
  CloudflareWorkersAdapter.handleWebhook
    (SampleRequest.adapter
       (UpdateHandler.onMessage Sample.h3
          (UpdateHandler.onMessage Sample.h2
             (UpdateHandler.onMessage Sample.h1 Sample.bare))))
    (SampleRequest.delivery u) SampleRequest.env
  = Some (respond "OK" 200,
          [HandlerCall "h1" (fresh u); HandlerCall "h2" (fresh u);
           ConsoleError "Error in handler:" "boom";
           HandlerCall "h3" (fresh u)]).
Proof.
  apply (webhook_ok_despite_handler_failures
           (SampleRequest.adapter
              (UpdateHandler.onMessage Sample.h3
                 (UpdateHandler.onMessage Sample.h2
                    (UpdateHandler.onMessage Sample.h1 Sample.bare))))
           (SampleRequest.delivery (Sample.message_update "hi"))
           SampleRequest.env (Sample.message_update "hi") []).
  - reflexivity.
  - right. right. reflexivity.
  - reflexivity.
  - reflexivity.
  - constructor.
Defined.

(** [processUpdate] when a stage throws before proceeding. *)
Lemma processUpdate_failing_stage this pre B post l e tail update :
  B = map Log l ++ Raise e :: tail ->
  UpdateHandler.middleware this = map run_stage (pre ++ B :: post) ->
  Forall (fun st => proceeds_once st = true) pre ->
  exists s,
    UpdateHandler.processUpdate this update = (Throw e, s) /\
    trace s = flat_map before pre ++ map StageLog l
              ++ [ConsoleError "Error processing update:" e].
Proof.
  intros HB Hm Hpre. subst B. rewrite map_app in Hm. cbn [map] in Hm.
  rewrite (processUpdate_prefix this pre _ update Hm Hpre).
  cbn [List.length]. rewrite length_map.
  rewrite dispatch_at by (simpl; now rewrite length_map).
  rewrite run_stage_logs_then. cbn [run_stage].
  eexists. split; [reflexivity|]. trace_norm. reflexivity.
Qed.

(** X15.  A failing stage fails the webhook: when a stage throws,
    [handleWebhook] answers with the response of the configured error
    handler, or [500 Internal Server Error] without one, after the
    failure was written to the console twice, by [processUpdate] and by
    [handleWebhook]. *)
Theorem webhook_fails_with_the_chain
        (adapter : CloudflareWorkersAdapter.t) (request : Request.t)
        (env : CloudflareWorkerEnv.t) (update : Update.t)
        (pre post : list Stage) (l : list string) (e : Error) (tail : Stage) :
  Request.method request = "POST" ->
  secret_accepted adapter request env ->
  Request.body request = Json (Some update) ->
  UpdateHandler.middleware (CloudflareWorkersAdapter.updateHandler adapter) =
    map run_stage (pre ++ (map Log l ++ Raise e :: tail) :: post) ->
  Forall (fun st => proceeds_once st = true) pre ->
  CloudflareWorkersAdapter.handleWebhook adapter request env =
  Some (match CloudflareWorkersAdapter.errorHandler adapter with
        | Some handler => handler e request
        | None => respond "Internal Server Error" 500
        end,
        flat_map before pre ++ map StageLog l
        ++ [ConsoleError "Error processing update:" e;
            ConsoleError "Error handling webhook:" e]).
Proof.
  intros Hm Hs Hb Hmw Hpre.
  rewrite (handleWebhook_accepted adapter request env update) by assumption.
  destruct (processUpdate_failing_stage _ pre _ post l e tail update
              eq_refl Hmw Hpre) as (s & Hrun & Htrace).
  rewrite Hrun. unfold CloudflareWorkersAdapter.failed. rewrite Htrace.
  now rewrite <- !app_assoc.
Qed.

(** A failing stage in front of a message handler. *)
Lemma webhook_fails_with_the_chain_witness :
  CloudflareWorkersAdapter.handleWebhook
    (SampleRequest.adapter
       (register [[Log "auth"; Raise "no session"]]
                 (UpdateHandler.onMessage Sample.h1 Sample.bare)))
    (SampleRequest.delivery (Sample.message_update "hi")) SampleRequest.env
  = Some (respond "Internal Server Error" 500,
          [StageLog "auth";
           ConsoleError "Error processing update:" "no session";
           ConsoleError "Error handling webhook:" "no session"]).
Proof.
  apply (webhook_fails_with_the_chain
           (SampleRequest.adapter
              (register [[Log "auth"; Raise "no session"]]
                        (UpdateHandler.onMessage Sample.h1 Sample.bare)))
           (SampleRequest.delivery (Sample.message_update "hi"))
           SampleRequest.env (Sample.message_update "hi")
           [] [] ["auth"] "no session" []).
  - reflexivity.
  - right. right. reflexivity.
  - reflexivity.
  - reflexivity.
  - constructor.
Defined.

(** X16.  The checks of [handleWebhook], in their order: a request that
    is not a POST gets [405]; a POST whose header is not the configured
    non-empty secret, with verification on, gets [401]; a POST that passes
    with a JSON body that is no update gets [400]; a POST that passes with
    a body that is not JSON goes to the error path, [500] by default.  In
    the first three cases nothing is written and no handler runs; in the
    last one only the console line is written. *)
Theorem webhook_rejections (adapter : CloudflareWorkersAdapter.t)
        (request : Request.t) (env : CloudflareWorkerEnv.t) :
  let r := CloudflareWorkersAdapter.handleWebhook adapter request env in
  (Request.method request <> "POST" ->
   r = Some (respond "Method Not Allowed" 405, []))
  /\ (Request.method request = "POST" ->
      forall secret,
        CloudflareWorkersAdapter.verifyWebhookSecret adapter = true ->
        CloudflareWorkerEnv.TELEGRAM_WEBHOOK_SECRET env = Some secret ->
        secret <> EmptyString ->
        Request.secret_token request <> Some secret ->
        r = Some (respond "Unauthorized" 401, []))
  /\ (Request.method request = "POST" ->
      secret_accepted adapter request env ->
      Request.body request = Json None ->
      r = Some (respond "Bad Request: Invalid update format" 400, []))
  /\ (Request.method request = "POST" ->
      secret_accepted adapter request env ->
      forall e,
        Request.body request = InvalidJson e ->
        r = Some (match CloudflareWorkersAdapter.errorHandler adapter with
                  | Some handler => handler e request
                  | None => respond "Internal Server Error" 500
                  end,
                  [ConsoleError "Error handling webhook:" e])).
Proof.
  intros r. subst r. unfold CloudflareWorkersAdapter.handleWebhook.
  repeat split.
  - intros Hm. destruct (String.eqb_spec (Request.method request) "POST");
      [contradiction|reflexivity].
  - intros Hm secret Hv Hsec Hne Hhead. rewrite Hm, Hv, Hsec.
    rewrite truthy_string_nonempty by assumption.
    unfold CloudflareWorkersAdapter.differs.
    destruct (Request.secret_token request) as [h|]; [|reflexivity].
    destruct (String.eqb_spec h secret); [congruence|reflexivity].
  - intros Hm Hs Hb. now rewrite Hm, secret_check_passes, Hb.
  - intros Hm Hs e Hb. now rewrite Hm, secret_check_passes, Hb.
Qed.

(** A GET, a POST with a wrong secret, and a POST without an update. *)
Lemma webhook_rejections_witness :
  let adapter := SampleRequest.adapter Sample.bot in
  let request method secret body :=
    {| Request.method := method; Request.pathname := "/webhook";
       Request.secret_token := secret; Request.body := body |} in
  CloudflareWorkersAdapter.handleWebhook adapter
    (request "GET" None (Json None)) SampleRequest.env
  = Some (respond "Method Not Allowed" 405, [])
  /\ CloudflareWorkersAdapter.handleWebhook adapter
       (request "POST" (Some "guess")
                (Json (Some (Sample.message_update "/help"))))
       SampleRequest.env
     = Some (respond "Unauthorized" 401, [])
  /\ CloudflareWorkersAdapter.handleWebhook adapter
       (request "POST" (Some "s3cret") (Json None)) SampleRequest.env
     = Some (respond "Bad Request: Invalid update format" 400, []).
Proof.
  intros adapter request. split; [|split].
  - apply (proj1 (webhook_rejections adapter
                    (request "GET" None (Json None)) SampleRequest.env)).
    discriminate.
  - apply (proj1 (proj2 (webhook_rejections adapter
                           (request "POST" (Some "guess")
                              (Json (Some (Sample.message_update "/help"))))
                           SampleRequest.env)) eq_refl "s3cret");
      try reflexivity; discriminate.
  - apply (proj1 (proj2 (proj2 (webhook_rejections adapter
                                  (request "POST" (Some "s3cret") (Json None))
                                  SampleRequest.env)))).
    + reflexivity.
    + right. right. reflexivity.
    + reflexivity.
Defined.

(** X17.  Verification needs a secret in the environment: when
    [TELEGRAM_WEBHOOK_SECRET] is absent or empty, an adapter built with
    verification on answers every request as the same adapter built with
    verification off does, whatever the secret header holds. *)
Theorem missing_secret_disables_verification
        (handler : UpdateHandler.t) (verify : option bool)
        (onError : option (Error -> Request.t -> Response.t))
        (request : Request.t) (env : CloudflareWorkerEnv.t) :
  truthy_string (CloudflareWorkerEnv.TELEGRAM_WEBHOOK_SECRET env) = false ->
  CloudflareWorkersAdapter.handleWebhook
    (CloudflareWorkersAdapter.new handler verify onError) request env
  = CloudflareWorkersAdapter.handleWebhook
      (CloudflareWorkersAdapter.new handler (Some false) onError) request env.
Proof.
  intros H. unfold CloudflareWorkersAdapter.handleWebhook.
  rewrite H, andb_false_r.
  cbn [CloudflareWorkersAdapter.new
       CloudflareWorkersAdapter.verifyWebhookSecret andb].
  reflexivity.
Qed.

(** An empty secret in the environment and a guessed header: the update
    is processed as if verification were off. *)
Lemma missing_secret_disables_verification_witness :
  let env := {| CloudflareWorkerEnv.TELEGRAM_WEBHOOK_SECRET := Some EmptyString |} in
  let request :=
    {| Request.method := "POST"; Request.pathname := "/webhook";
       Request.secret_token := Some "guess";
       Request.body := Json (Some (Sample.message_update "/help")) |} in
  CloudflareWorkersAdapter.handleWebhook
    (CloudflareWorkersAdapter.new Sample.bot None None) request env
  = CloudflareWorkersAdapter.handleWebhook
      (CloudflareWorkersAdapter.new Sample.bot (Some false) None) request env.
Proof.
  intros env request.
  apply (missing_secret_disables_verification Sample.bot None None
           request env).
  reflexivity.
Defined.

(** X18.  The fetch handler runs the update handler only for a POST to
    the webhook path, distinct from the health path, that passes the
    secret check and carries an update: for every other request its
    answer and its trace are the same whatever update handler the adapter
    holds. *)
Theorem pipeline_unreachable_otherwise
        (adapter other : CloudflareWorkersAdapter.t)
        (webhookPath healthCheckPath : option string)
        (request : Request.t) (env : CloudflareWorkerEnv.t) :
  CloudflareWorkersAdapter.verifyWebhookSecret other =
    CloudflareWorkersAdapter.verifyWebhookSecret adapter ->
  CloudflareWorkersAdapter.errorHandler other =
    CloudflareWorkersAdapter.errorHandler adapter ->
  reaches_pipeline adapter webhookPath healthCheckPath request env = false ->
  CloudflareWorkersAdapter.createWorkerHandler other webhookPath
    healthCheckPath request env
  = CloudflareWorkersAdapter.createWorkerHandler adapter webhookPath
      healthCheckPath request env.
Proof.
  intros Hv He Hreach.
  unfold CloudflareWorkersAdapter.createWorkerHandler,
    CloudflareWorkersAdapter.handleWebhook, CloudflareWorkersAdapter.failed.
  unfold reaches_pipeline in Hreach. rewrite Hv, He.
  destruct (String.eqb (Request.pathname request) _); [reflexivity|].
  destruct (String.eqb (Request.pathname request) _); [|reflexivity].
  destruct (String.eqb (Request.method request) "POST"); [|reflexivity].
  cbn [negb andb] in *.
  destruct (CloudflareWorkersAdapter.verifyWebhookSecret adapter && _ && _);
    [reflexivity|].
  cbn [negb andb] in Hreach.
  destruct (Request.body request) as [e|[u|]];
    [reflexivity|discriminate|reflexivity].
Qed.

(** The health path configured equal to the webhook path: a genuine
    delivery is answered by the health check, whatever is registered. *)
Lemma pipeline_unreachable_otherwise_witness :
  let request := SampleRequest.delivery (Sample.message_update "/help") in
  CloudflareWorkersAdapter.createWorkerHandler
    (SampleRequest.adapter Sample.bare) None (Some "/webhook") request
    SampleRequest.env
  = CloudflareWorkersAdapter.createWorkerHandler
      (SampleRequest.adapter Sample.bot) None (Some "/webhook") request
      SampleRequest.env.
Proof.
  apply (pipeline_unreachable_otherwise (SampleRequest.adapter Sample.bot)
           (SampleRequest.adapter Sample.bare) None (Some "/webhook")
           (SampleRequest.delivery (Sample.message_update "/help"))
           SampleRequest.env); reflexivity.
Defined.

(** ** The router's fallbacks and setters *)

(** X19.  The router is terminal for commands: on a context with a
    non-empty command, or whenever a default handler is set, the result
    does not depend on the continuation, which is never called. *)
Theorem router_proceeds_only_without_command (this : CommandRouter.t)
        (next next' : M unit) (s : State) :
  truthy_string (UpdateContext.command (ctx s)) = true \/
  CommandRouter.defaultHandler this <> None ->
  CommandRouter.middleware this next s = CommandRouter.middleware this next' s.
Proof.
  intros H. unfold CommandRouter.middleware. rewrite !bind_unfold.
  cbn [get_ctx].
  destruct (truthy_string (UpdateContext.command (ctx s))); cbn [negb];
    [reflexivity|].
  destruct H as [H|H]; [discriminate|].
  destruct (CommandRouter.defaultHandler this); [reflexivity|contradiction].
Qed.

(** [/start] with a continuation that would fail: the handler runs, the
    continuation does not. *)
Lemma router_proceeds_only_without_command_witness :
  let s := Sample.after_parser (Sample.message_update "/start") "start" [] in
  CommandRouter.middleware Sample.router (throw "never") s
  = CommandRouter.middleware Sample.router (ret tt) s.
Proof.
  apply (router_proceeds_only_without_command Sample.router
           (throw "never") (ret tt)
           (Sample.after_parser (Sample.message_update "/start") "start" [])).
  left. reflexivity.
Defined.

(** X20.  A command that is neither the help command nor in the map:
    after [unknown(handler)] that handler is called once with the parsed
    context and nothing is sent; without an unknown-command handler the
    router sends, to the chat of a present message, the text naming the
    command and the help command. *)
Theorem unknown_command_fallback (this : CommandRouter.t) (h : Handler)
        (next : M unit) (s : State) (cmd : string) :
  UpdateContext.command (ctx s) = Some cmd ->
  cmd <> EmptyString ->
  cmd <> CommandRouter.helpCommand this ->
  JS.map_get cmd (CommandRouter.commandMap this) = None ->
  CommandRouter.middleware (CommandRouter.unknown h this) next s =
    (match hthrows h with Some e => Throw e | None => Ok tt end,
     add_trace [HandlerCall (hname h) (ctx s)] s)
  /\ (CommandRouter.unknownCommandHandler this = None ->
      forall m, Update.message (UpdateContext.update (ctx s)) = Some m ->
      CommandRouter.middleware this next s =
        (Ok tt,
         add_trace
           [SendMessage (Chat.id (Message.chat m))
              ("Unknown command: /" ++ cmd ++ ". Type /"
                 ++ CommandRouter.helpCommand this
                 ++ " for available commands.")] s)).
Proof.
  intros Hc Hne Hh Hget. split.
  - unfold CommandRouter.middleware. rewrite bind_unfold. cbn [get_ctx].
    rewrite Hc. rewrite truthy_string_nonempty by assumption. cbn [negb].
    cbn [CommandRouter.unknown CommandRouter.helpCommand
         CommandRouter.commandMap CommandRouter.unknownCommandHandler].
    destruct (String.eqb_spec cmd (CommandRouter.helpCommand this));
      [contradiction|].
    rewrite Hget. apply call_run.
  - intros Hu m Hm.
    rewrite (middleware_unknown this next s cmd) by assumption.
    unfold reply_events. rewrite Hm. reflexivity.
Qed.

(** [/nope] with and without an unknown-command handler. *)
Lemma unknown_command_fallback_witness :
  let s := Sample.after_parser (Sample.message_update "/nope") "nope" [] in
  CommandRouter.middleware (CommandRouter.unknown Sample.h1 Sample.router)
    (ret tt) s
  = (Ok tt, add_trace [HandlerCall "h1" (ctx s)] s)
  /\ CommandRouter.middleware Sample.router (ret tt) s
     = (Ok tt,
        add_trace
          [SendMessage 42
             "Unknown command: /nope. Type /help for available commands."]
          s).
Proof.
  intros s.
  destruct (unknown_command_fallback Sample.router Sample.h1 (ret tt) s "nope")
    as [H1 H2]; try reflexivity; try discriminate.
  split; [exact H1|].
  exact (H2 eq_refl (Sample.text_message "/nope") eq_refl).
Defined.

(** X21.  [help(name)] renames the help command: [name] is answered with
    the help text, which the renaming leaves unchanged, even when a
    definition is registered under [name]; the former help command
    becomes an ordinary command, so a definition registered under it is
    now reached. *)
Theorem help_renames_the_help_command (this : CommandRouter.t)
        (name : string) (next : M unit) (s : State) (cmd : string) :
  UpdateContext.command (ctx s) = Some cmd ->
  cmd <> EmptyString ->
  let renamed := CommandRouter.help name this in
  CommandRouter.generateHelp renamed = CommandRouter.generateHelp this
  /\ (cmd = name ->
      CommandRouter.middleware renamed next s =
        (Ok tt,
         add_trace (reply_events (ctx s) (CommandRouter.generateHelp this)) s))
  /\ (cmd <> name ->
      forall config a,
        JS.map_get cmd (CommandRouter.commandMap this) = Some config ->
        UpdateContext.args (ctx s) = Some a ->
        CommandConfig.minArgs config = None ->
        CommandConfig.maxArgs config = None ->
        CommandRouter.middleware renamed next s =
          (match hthrows (CommandConfig.handler config) with
           | Some e => Throw e
           | None => Ok tt
           end,
           add_trace
             [HandlerCall (hname (CommandConfig.handler config)) (ctx s)] s)).
Proof.
  intros Hc Hne renamed. split; [reflexivity|]. split.
  - intros Hn. now rewrite (middleware_help renamed next s cmd).
  - intros Hn config a Hget Ha Hmin Hmax.
    rewrite (middleware_known renamed next s cmd config a) by assumption.
    rewrite Hmin, Hmax. cbn. apply call_run.
Qed.

(** After [help("menu")], [/help] reaches the handler registered under
    [help] and [/menu] gets the help text. *)
Lemma help_renames_the_help_command_witness :
  let renamed := CommandRouter.help "menu" Sample.router in
  let s := Sample.after_parser (Sample.message_update "/help") "help" [] in
  let s' := Sample.after_parser (Sample.message_update "/menu") "menu" [] in
  CommandRouter.middleware renamed (ret tt) s
  = (Ok tt, add_trace [HandlerCall "help" (ctx s)] s)
  /\ CommandRouter.middleware renamed (ret tt) s'
     = (Ok tt,
        add_trace
          (reply_events (ctx s') (CommandRouter.generateHelp Sample.router))
          s').
Proof.
  intros renamed s s'. split.
  - apply (proj2 (proj2 (help_renames_the_help_command Sample.router "menu"
                           (ret tt) s "help" eq_refl ltac:(discriminate)))
             ltac:(discriminate) Sample.help_cmd []); reflexivity.
  - apply (proj1 (proj2 (help_renames_the_help_command Sample.router "menu"
                           (ret tt) s' "menu" eq_refl ltac:(discriminate)))).
    reflexivity.
Defined.

(** ** Registering several definitions *)

Lemma find_snoc {A} (f : A -> bool) l x :
  find f (l ++ [x]) =
  match find f l with
  | Some y => Some y
  | None => if f x then Some x else None
  end.
Proof.
  induction l as [|y l IH]; cbn; [reflexivity|].
  destruct (f y); [reflexivity|exact IH].
Qed.

(** X22.  The last registration wins: after [commands(configs)] a key
    resolves to the last definition of [configs] that is filed under it,
    by its name or by an alias, and keeps its former binding when no
    definition of [configs] is filed under it.  The names registered with
    [ignoreCase] are strings of ASCII characters. *)
Theorem later_registration_wins (configs : list CommandConfig.t)
        (this : CommandRouter.t) (k : string) :
  Forall (fun c => ascii_keys c = true) configs ->
  JS.map_get k (CommandRouter.commandMap (CommandRouter.commands configs this))
  = match last_binding k configs with
    | Some config => Some config
    | None => JS.map_get k (CommandRouter.commandMap this)
    end.
Proof.
  intros _. unfold CommandRouter.commands, last_binding. revert this.
  induction configs as [|c configs IH]; intros this; [reflexivity|].
  cbn [fold_left rev]. rewrite IH, find_snoc.
  destruct (find (binds k) (rev configs)); [reflexivity|].
  destruct (command_sets_keys c this) as (Hm & _).
  rewrite Hm, fold_set_lookup. unfold binds.
  now destruct (existsb (String.eqb k) (registration_keys c)).
Qed.

(** [ping] registered after [start] and again under the name [start]:
    [start] resolves to the later definition, [p] to [ping]. *)
Lemma later_registration_wins_witness :
  let again :=
    {| CommandConfig.command := "start";
       CommandConfig.description := Some "Start again";
       CommandConfig.handler := Sample.h2;
       CommandConfig.aliases := None;
       CommandConfig.minArgs := None;
       CommandConfig.maxArgs := None;
       CommandConfig.ignoreCase := Some true |} in
  let this := CommandRouter.commands [Sample.ping; again] Sample.router in
  JS.map_get "start" (CommandRouter.commandMap this) = Some again
  /\ JS.map_get "p" (CommandRouter.commandMap this) = Some Sample.ping
  /\ JS.map_get "cmd" (CommandRouter.commandMap this) = Some Sample.cmd.
Proof.
  intros again this. split; [|split].
  - apply (later_registration_wins [Sample.ping; again] Sample.router "start").
    repeat constructor.
  - apply (later_registration_wins [Sample.ping; again] Sample.router "p").
    repeat constructor.
  - apply (later_registration_wins [Sample.ping; again] Sample.router "cmd").
    repeat constructor.
Defined.
